(** * nuclide / hack: the per-client HackLanguage manager ([pkg/nuclide/hack/lib/hack.js])

    A shallow embedding of [hack.js] and the properties of its session
    registry, its capability probe and its editor-facing operations.

    Modelling choices.
    - JavaScript strings are [string]s of 8-bit code units (the Latin-1 range);
      [trim], [toLowerCase] and [indexOf] follow ECMAScript on that range.
    - JavaScript numbers that hold rows, columns and offsets are integers ([Z]).
    - The two module-level objects used as maps, [clientToHackLanguage] and
      [clientToHackLinterCache], are [gmap]s keyed by the client id; a client
      id is taken not to name a property inherited from [Object.prototype].
    - An [async function] is a tree of synchronous operations and [await]
      points ([Async]); between two awaits a task runs without interruption,
      at an await any other task may run (cooperative scheduling).
    - Objects built with [new] carry the address they were allocated at, so
      that "the same instance" is equality of values.
    - Collaborators that live outside this file ([nuclide-client]'s
      [getClient], Node's [url.parse] and [path.dirname],
      [nuclide-atom-helpers]' [extractWordAtPosition]) are section variables;
      the methods of a client and of a [HackLanguage] are requests answered by
      the environment. *)

From Stdlib Require Import ZArith Lia Ascii String.
From stdpp Require Import base option list gmap strings.

Open Scope Z_scope.

(** ** JavaScript values *)

(** An opaque payload ([mixed] in the Flow annotations); objects and arrays
    are known by reference only. *)
Inductive mixed : Type :=
| js_null
| js_bool (b : bool)
| js_number (z : Z)
| js_string (s : string)
| js_object (ref : nat).

Inductive JsError : Type :=
| Error (message : string).

(** A settled promise. *)
Inductive Outcome (A : Type) : Type :=
| Resolved (a : A)
| Rejected (e : JsError).
Arguments Resolved {A} a.
Arguments Rejected {A} e.

(** *** String built-ins *)

Module JsString.

Definition code (c : ascii) : N := N_of_ascii c.

(** ECMAScript WhiteSpace and LineTerminator code points below 256. *)
Definition isWhiteSpace (c : ascii) : bool :=
  let n := code c in
  ((9 <=? n) && (n <=? 13) || (n =? 32) || (n =? 160))%N.

Fixpoint trimStart (s : string) : string :=
  match s with
  | EmptyString => EmptyString
  | String c s' => if isWhiteSpace c then trimStart s' else s
  end.

Fixpoint trimEnd (s : string) : string :=
  match s with
  | EmptyString => EmptyString
  | String c s' =>
      match trimEnd s' with
      | EmptyString => if isWhiteSpace c then EmptyString else String c EmptyString
      | t => String c t
      end
  end.

Definition trim (s : string) : string := trimEnd (trimStart s).

(** Default case conversion: A-Z, and the Latin-1 capitals other than the
    multiplication sign. *)
Definition lowerChar (c : ascii) : ascii :=
  let n := code c in
  if ((65 <=? n) && (n <=? 90)
      || (192 <=? n) && (n <=? 222) && negb (n =? 215))%N
  then ascii_of_N (n + 32) else c.

Fixpoint toLowerCase (s : string) : string :=
  match s with
  | EmptyString => EmptyString
  | String c s' => String (lowerChar c) (toLowerCase s')
  end.

Fixpoint startsWith (s t : string) {struct t} : bool :=
  match t, s with
  | EmptyString, _ => true
  | String _ _, EmptyString => false
  | String b t', String a s' => if Ascii.eqb a b then startsWith s' t' else false
  end.

(** [indexOfFrom s t i]: position of the first occurrence of [t] in [s],
    counted from [i], or [-1]. *)
Fixpoint indexOfFrom (s t : string) (i : Z) : Z :=
  if startsWith s t then i
  else match s with
       | EmptyString => -1
       | String _ s' => indexOfFrom s' t (i + 1)
       end.

Definition indexOf (s t : string) : Z := indexOfFrom s t 0.

(** ToBoolean on a string. *)
Definition truthy (s : string) : bool :=
  match s with EmptyString => false | String _ _ => true end.

(** ToBoolean on a [?string]. *)
Definition truthy_opt (s : option string) : bool :=
  match s with None => false | Some s => truthy s end.

End JsString.

(** ** Collaborators' data *)

Record NuclideClient : Type := mkClient {
  client_ref : nat;          (* which connection object this is *)
  getID : string;
}.

Inductive HackClient : Type :=
| RealClient (client : NuclideClient)
| NullHackClient (addr : nat).

(** An instance of [HackLanguage]: where it was allocated and the client it
    was constructed with. *)
Record HackLanguage : Type := mkHackLanguage {
  hl_addr : nat;
  hl_client : HackClient;
}.

Inductive Obj : Type :=
| ObjNullHackClient
| ObjHackLanguage (hackClient : HackClient).

Record Point : Type := mkPoint { row : Z; column : Z }.
Record Range : Type := mkRange { range_start : Point; range_end : Point }.

Record TextBuffer : Type := mkBuffer {
  getUri : string;
  buffer_getText : string;
  lineForRow : Z -> option string;
  characterIndexForPosition : Point -> Z;
}.

Record TextEditor : Type := mkEditor {
  getBuffer : TextBuffer;
  getPath : string;
  getText : string;
  getLastCursor_getBufferPosition : Point;
  editor_view : nat;
}.

Record Url : Type := mkUrl {
  url_path : string;
  url_protocol : option string;
  url_host : option string;
}.

Record ExecResult : Type := mkExec { stdout : string; stderr : string; exitCode : Z }.

Record Location : Type := mkLocation { loc_path : string; loc_line : Z; loc_column : Z }.

Record Completion : Type := mkCompletion { matchText : string; completion_rest : mixed }.

Record WordMatch : Type := mkWordMatch { word : string; word_range : Range }.

Record TypeHint : Type := mkTypeHint { hint : string; hint_range : Range }.

(** What [findDefinition] resolves to: [{file, line, column}]. *)
Record Definition_ : Type := mkDefinition { def_file : string; def_line : Z; def_column : Z }.

(** ** Requests: the asynchronous methods of a client and of a HackLanguage *)

Inductive Request : Type :=
| client_exec (c : NuclideClient) (command : string)
| client_findNearestFile (c : NuclideClient) (name dir : string)
| getDiagnostics (h : HackLanguage) (path contents : string)
| getCompletions (h : HackLanguage) (path contents : string) (offset : Z)
| formatSource (h : HackLanguage) (contents : string) (startPosition endPosition : Z)
| getType (h : HackLanguage) (path contents expression : string) (lineNumber col : Z)
| getDefinition (h : HackLanguage) (path contents : string) (lineNumber col : Z)
    (lineText : option string)
| updateFile (h : HackLanguage) (path contents : string)
| getServerDiagnostics (h : HackLanguage)
| updateDependencies (h : HackLanguage).

Definition Response (r : Request) : Type :=
  match r with
  | client_exec _ _ => ExecResult
  | client_findNearestFile _ _ _ => option string
  | getDiagnostics _ _ _ => list mixed
  | getCompletions _ _ _ _ => list Completion
  | formatSource _ _ _ _ => string
  | getType _ _ _ _ _ _ => option string
  | getDefinition _ _ _ _ _ _ => option (list Location)
  | updateFile _ _ _ => unit
  | getServerDiagnostics _ => option (list mixed)
  | updateDependencies _ => unit
  end.

(** What an [await] waits for: one call, [Promise.all] of two, or the
    promise that an async function of this file has returned and settled
    (the wait then lasts one turn of the job queue). *)
Inductive Awaitable : Type :=
| Single (r : Request)
| Promise_all (a b : Awaitable)
| OwnPromise.

Fixpoint Value (a : Awaitable) : Type :=
  match a with
  | Single r => Response r
  | Promise_all a b => (Value a * Value b)%type
  | OwnPromise => unit
  end.

Fixpoint calls (a : Awaitable) : list Request :=
  match a with
  | Single r => [r]
  | Promise_all a b => calls a ++ calls b
  | OwnPromise => []
  end.

(** ** The world an async function runs in *)

Inductive Event : Type :=
| Called (r : Request)                     (* a method was invoked *)
| Resumed (a : Awaitable) (fulfilled : bool) (* an await got its answer *)
| Logged (message : string) (err : JsError)    (* logger.error *)
| Dispatched (view : nat) (command : string).  (* atom.commands.dispatch *)

Record World : Type := mkWorld {
  clientToHackLanguage : gmap string HackLanguage;
  clientToHackLinterCache : gmap string (list mixed);
  heap : list Obj;
  trace : list Event;
}.

Definition emit (evs : list Event) (w : World) : World :=
  mkWorld (clientToHackLanguage w) (clientToHackLinterCache w) (heap w) (trace w ++ evs).

(** Synchronous operations on the world. *)
Inductive SyncOp : Type -> Type :=
| ReadHackLanguage (clientId : string) : SyncOp (option HackLanguage)
| WriteHackLanguage (clientId : string) (h : HackLanguage) : SyncOp unit
| ReadLinterCache (clientId : string) : SyncOp (option (list mixed))
| WriteLinterCache (clientId : string) (d : list mixed) : SyncOp unit
| NewNullHackClient : SyncOp HackClient
| NewHackLanguage (hackClient : HackClient) : SyncOp HackLanguage
| logger_error (message : string) (err : JsError) : SyncOp unit
| atom_commands_dispatch (view : nat) (command : string) : SyncOp unit
| Detached (r : Request) : SyncOp unit.   (* a call whose promise is dropped *)

Definition perform {X} (op : SyncOp X) (w : World) : World * X :=
  match op in SyncOp X return World * X with
  | ReadHackLanguage clientId => (w, clientToHackLanguage w !! clientId)
  | WriteHackLanguage clientId h =>
      (mkWorld (<[clientId := h]> (clientToHackLanguage w))
               (clientToHackLinterCache w) (heap w) (trace w), tt)
  | ReadLinterCache clientId => (w, clientToHackLinterCache w !! clientId)
  | WriteLinterCache clientId d =>
      (mkWorld (clientToHackLanguage w)
               (<[clientId := d]> (clientToHackLinterCache w)) (heap w) (trace w), tt)
  | NewNullHackClient =>
      (mkWorld (clientToHackLanguage w) (clientToHackLinterCache w)
               (heap w ++ [ObjNullHackClient]) (trace w),
       NullHackClient (length (heap w)))
  | NewHackLanguage hackClient =>
      (mkWorld (clientToHackLanguage w) (clientToHackLinterCache w)
               (heap w ++ [ObjHackLanguage hackClient]) (trace w),
       mkHackLanguage (length (heap w)) hackClient)
  | logger_error message err => (emit [Logged message err] w, tt)
  | atom_commands_dispatch view command => (emit [Dispatched view command] w, tt)
  | Detached r => (emit [Called r] w, tt)
  end.

(** ** Async functions *)

Inductive Async (A : Type) : Type :=
| Ret (a : A)
| Throw (e : JsError)
| Sync {X : Type} (op : SyncOp X) (k : X -> Async A)
| Await (a : Awaitable) (k : Outcome (Value a) -> Async A).
Arguments Ret {A} a.
Arguments Throw {A} e.
Arguments Sync {A X} op k.
Arguments Await {A} a k.

Fixpoint bind {A B} (m : Async A) (f : A -> Async B) : Async B :=
  match m with
  | Ret a => f a
  | Throw e => Throw e
  | Sync op k => Sync op (fun x => bind (k x) f)
  | Await a k => Await a (fun o => bind (k o) f)
  end.

(** [try { m } catch (err) { h err }] *)
Fixpoint try_catch {A} (m : Async A) (h : JsError -> Async A) : Async A :=
  match m with
  | Ret a => Ret a
  | Throw e => h e
  | Sync op k => Sync op (fun x => try_catch (k x) h)
  | Await a k => Await a (fun o => try_catch (k o) h)
  end.

(** [await p]: the value of a fulfilled promise, a throw for a rejected one. *)
Definition await (a : Awaitable) : Async (Value a) :=
  Await a (fun o => match o with Resolved v => Ret v | Rejected e => Throw e end).

Definition sync {X} (op : SyncOp X) : Async X := Sync op Ret.

(** [await f(...)] for an async function [f] of this file: the body of [f]
    runs as part of the caller, which gets the result, or the throw, one turn
    after [f] has settled. *)
Fixpoint await_async {A} (m : Async A) : Async A :=
  match m with
  | Ret a => Await OwnPromise (fun _ => Ret a)
  | Throw e => Await OwnPromise (fun _ => Throw e)
  | Sync op k => Sync op (fun x => await_async (k x))
  | Await a k => Await a (fun o => await_async (k o))
  end.

Declare Scope async_scope.
Delimit Scope async_scope with async.
Notation "'let*' x ':=' m 'in' k" := (bind m (fun x => k))
  (at level 10, x name, m at level 100, k at level 200) : async_scope.
Notation "'let*' ' p ':=' m 'in' k" := (bind m (fun x => match x with p => k end))
  (at level 10, p pattern, m at level 100, k at level 200) : async_scope.
Notation "m ;;; k" := (bind m (fun _ => k))
  (at level 100, right associativity) : async_scope.
Open Scope async_scope.

(** ** The environment's answers *)

Record Oracle : Type := mkOracle {
  respond : forall r : Request, Outcome (Response r);
  (* of two rejections under one Promise.all, whether the left came first *)
  left_rejects_first : bool;
}.

Definition Promise_all_settle {X Y} (left_first : bool)
    (a : Outcome X) (b : Outcome Y) : Outcome (X * Y) :=
  match a, b with
  | Resolved x, Resolved y => Resolved (x, y)
  | Rejected e, Resolved _ => Rejected e
  | Resolved _, Rejected e => Rejected e
  | Rejected e1, Rejected e2 => Rejected (if left_first then e1 else e2)
  end.

Fixpoint settle (env : Oracle) (a : Awaitable) : Outcome (Value a) :=
  match a with
  | Single r => respond env r
  | Promise_all a b =>
      Promise_all_settle (left_rejects_first env) (settle env a) (settle env b)
  | OwnPromise => Resolved tt
  end.

Definition fulfilled {A} (o : Outcome A) : bool :=
  match o with Resolved _ => true | Rejected _ => false end.

(** ** Running a task *)

(** Where a task stands after a synchronous stretch. *)
Inductive Status (A : Type) : Type :=
| Settled (o : Outcome A)
| Suspended (a : Awaitable) (k : Outcome (Value a) -> Async A).
Arguments Settled {A} o.
Arguments Suspended {A} a k.

(** Run up to the next [await]; the calls of the awaited promise are made
    before the task suspends. *)
Fixpoint run_sync {A} (m : Async A) (w : World) : World * Status A :=
  match m with
  | Ret a => (w, Settled (Resolved a))
  | Throw e => (w, Settled (Rejected e))
  | Sync op k => let '(w', x) := perform op w in run_sync (k x) w'
  | Await a k => (emit (map Called (calls a)) w, Suspended a k)
  end.

(** Give a suspended task its answer and run it to its next await. *)
Definition resume {A} (env : Oracle) (s : Status A) (w : World) : World * Status A :=
  match s with
  | Settled o => (w, Settled o)
  | Suspended a k =>
      let o := settle env a in
      run_sync (k o) (emit [Resumed a (fulfilled o)] w)
  end.

(** A task run alone, from call to settlement. *)
Fixpoint run {A} (env : Oracle) (m : Async A) (w : World) : World * Outcome A :=
  match m with
  | Ret a => (w, Resolved a)
  | Throw e => (w, Rejected e)
  | Sync op k => let '(w', x) := perform op w in run env (k x) w'
  | Await a k =>
      let o := settle env a in
      run env (k o) (emit (map Called (calls a) ++ [Resumed a (fulfilled o)]) w)
  end.

(** ** Several tasks in flight *)

(** The pending and finished calls, in the order they were made. *)
Abbreviation Pool A := (list (Status A)).

Inductive Action (A : Type) : Type :=
| Spawn (m : Async A)                (* a new call: runs up to its first await *)
| Wake (i : nat) (env : Oracle).     (* the promise call [i] waits for settles *)
Arguments Spawn {A} m.
Arguments Wake {A} i env.

Definition act {A} (cfg : World * Pool A) (a : Action A) : World * Pool A :=
  let '(w, pool) := cfg in
  match a with
  | Spawn m => let '(w', s) := run_sync m w in (w', pool ++ [s])
  | Wake i env =>
      match pool !! i with
      | Some s => let '(w', s') := resume env s w in (w', <[i := s']> pool)
      | None => (w, pool)
      end
  end.

Definition execute {A} (acts : list (Action A)) (cfg : World * Pool A) : World * Pool A :=
  fold_left act acts cfg.

(** No call made yet. *)
Definition start {A} (w : World) : World * Pool A := (w, []).

(** The HackLanguage objects constructed so far. *)
Definition instances (w : World) : list Obj :=
  List.filter (fun o => match o with ObjHackLanguage _ => true | _ => false end) (heap w).

Definition rejects {A} (o : Outcome A) : bool := negb (fulfilled o).

(** ** Concrete collaborators, used to exercise the statements below *)

Module Sample.

Definition remote : NuclideClient := mkClient 0 "nuclide://host:9090".
Definition remote' : NuclideClient := mkClient 1 "nuclide://host:9090".

Definition getClient (uri : string) : NuclideClient := remote.
Definition url_parse (uri : string) : Url :=
  mkUrl "/www/a.php" (Some "nuclide:") (Some "host:9090").
Definition dirname (path : string) : string := "/www".
Definition extractWordAtPosition (e : TextEditor) (p : Point) : option WordMatch := None.

Definition buffer : TextBuffer :=
  mkBuffer "nuclide://host:9090/www/a.php" "<?hh f();"
           (fun r => if r =? 0 then Some "<?hh f();" else None)
           (fun p => column p).

Definition editor : TextEditor :=
  mkEditor buffer "nuclide://host:9090/www/a.php" "<?hh f();" (mkPoint 0 6) 7.

Definition fresh : World := mkWorld ∅ ∅ [] [].

Definition session : HackLanguage := mkHackLanguage 0 (RealClient remote).

(** A world where the session of [remote] is installed and one list of
    server diagnostics is cached. *)
Definition warm : World :=
  mkWorld {[ getID remote := session ]} {[ getID remote := [js_string "c"] ]}
          [ObjHackLanguage (RealClient remote)] [].

(** A backend that is installed, in a project, and whose server
    diagnostics fail. *)
Definition answers (r : Request) : Outcome (Response r) :=
  match r with
  | client_exec _ _ => Resolved (mkExec "/usr/bin/hh_client " "" 0)
  | client_findNearestFile _ _ _ => Resolved (Some "/www")
  | getDiagnostics _ _ _ => Resolved [js_string "a"; js_string "b"]
  | getCompletions _ _ _ _ =>
      Resolved [mkCompletion "FooBar" js_null; mkCompletion "baz" js_null;
                mkCompletion "foo" js_null]
  | formatSource _ _ _ _ => Resolved "<?hh f();"
  | getType _ _ _ _ _ _ => Resolved (Some "int")
  | getDefinition _ _ _ _ _ _ =>
      Resolved (Some [mkLocation "/www/f.php" 10 5; mkLocation "/www/g.php" 1 1])
  | updateFile _ _ _ => Resolved tt
  | getServerDiagnostics _ => Rejected (Error "connection lost")
  | updateDependencies _ => Resolved tt
  end.

Definition backend : Oracle := mkOracle answers true.

(** The same, with the shell command failing. *)
Definition broken : Oracle :=
  mkOracle
    (fun r =>
       match r return Outcome (Response r) with
       | client_exec _ _ => Rejected (Error "exec failed")
       | r => answers r
       end)
    true.

(** The same backend, with server diagnostics that arrive. *)
Definition healthy : Oracle :=
  mkOracle
    (fun r =>
       match r return Outcome (Response r) with
       | getServerDiagnostics _ => Resolved (Some [js_string "s"])
       | r => answers r
       end)
    true.

(** The same backend, with a server that has nothing to report. *)
Definition mute : Oracle :=
  mkOracle
    (fun r =>
       match r return Outcome (Response r) with
       | getServerDiagnostics _ => Resolved None
       | r => answers r
       end)
    true.

(** A backend that is installed but fails every request of a session. *)
Definition failing : Oracle :=
  mkOracle
    (fun r =>
       match r return Outcome (Response r) with
       | client_exec c cmd => answers (client_exec c cmd)
       | client_findNearestFile c n d => answers (client_findNearestFile c n d)
       | _ => Rejected (Error "backend down")
       end)
    true.

(** A word finder that sees [f] at columns 5 to 6 of row 0. *)
Definition wordAt (e : TextEditor) (p : Point) : option WordMatch :=
  Some (mkWordMatch "f" (mkRange (mkPoint 0 5) (mkPoint 0 6))).

End Sample.

(** ** hack.js *)

Section Hack.

Import JsString.

(** [require('nuclide-client').getClient] *)
Variable getClient : string -> NuclideClient.
(** [require('url').parse] *)
Variable url_parse : string -> Url.
(** [require('path').dirname] *)
Variable pathUtil_dirname : string -> string.
(** [require('nuclide-atom-helpers').extractWordAtPosition], at [HACK_WORD_REGEX] *)
Variable extractWordAtPosition : TextEditor -> Point -> option WordMatch.

Definition getFilePath (filePath : string) (protocol host : option string) : string :=
  if negb (truthy_opt protocol) || negb (truthy_opt host) then filePath
  else default "" protocol +:+ "//" +:+ default "" host +:+ filePath.

Definition getClientId (buffer : TextBuffer) : string :=
  let client := getClient (getUri buffer) in
  getID client.

Definition createHackLanguageIfNotExisting (client : NuclideClient) (filePath : string)
    : Async HackLanguage :=
  let clientId := getID client in
  let* existing := sync (ReadHackLanguage clientId) in
  match existing with
  | Some hackLanguage => Ret hackLanguage
  | None =>
      let* '(res, nearestPath) :=
        await (Promise_all
                 (Single (client_exec client "which hh_client"))
                 (Single (client_findNearestFile client ".hhconfig"
                            (pathUtil_dirname filePath)))) in
      (* If multiple calls were done asynchronously, return the single-created one. *)
      let* existing := sync (ReadHackLanguage clientId) in
      match existing with
      | Some hackLanguage => Ret hackLanguage
      | None =>
          let* hackClient :=
            (if truthy (trim (stdout res)) && truthy_opt nearestPath
             then Ret (RealClient client)
             else sync NewNullHackClient) in
          let* hackLanguage := sync (NewHackLanguage hackClient) in
          sync (WriteHackLanguage clientId hackLanguage) ;;;
          (* return clientToHackLanguage[clientId]: the entry just stored *)
          Ret hackLanguage
      end
  end.

Definition getHackLanguageForBuffer (buffer : TextBuffer) : Async HackLanguage :=
  let uri := getUri buffer in
  let filePath := url_path (url_parse uri) in
  let client := getClient uri in
  createHackLanguageIfNotExisting client filePath.

Definition findDiagnostics (editor : TextEditor) : Async (list mixed) :=
  let buffer := getBuffer editor in
  let* hackLanguage := await_async (getHackLanguageForBuffer buffer) in
  let path := url_path (url_parse (getPath editor)) in
  let contents := getText editor in
  let* errors := await (Single (getDiagnostics hackLanguage path contents)) in
  let clientId := getClientId buffer in
  let* cached := sync (ReadLinterCache clientId) in
  match cached with
  | Some serverErrors => Ret (errors ++ serverErrors)
  | None => Ret errors
  end.

Definition fetchCompletionsForEditor (editor : TextEditor) (prefix : string)
    : Async (list Completion) :=
  let* hackLanguage := await_async (getHackLanguageForBuffer (getBuffer editor)) in
  let path := url_path (url_parse (getPath editor)) in
  let contents := getText editor in
  let offset :=
    characterIndexForPosition (getBuffer editor) (getLastCursor_getBufferPosition editor) in
  let* completions := await (Single (getCompletions hackLanguage path contents offset)) in
  let tokenLowerCase := toLowerCase prefix in
  Ret (List.filter
         (fun completion => 0 <=? indexOf (toLowerCase (matchText completion)) tokenLowerCase)
         completions).

Definition formatSourceFromEditor (editor : TextEditor) (range : Range) : Async string :=
  let buffer := getBuffer editor in
  let* hackLanguage := await_async (getHackLanguageForBuffer buffer) in
  let startPosition := characterIndexForPosition buffer (range_start range) in
  let endPosition := characterIndexForPosition buffer (range_end range) in
  await (Single (formatSource hackLanguage (buffer_getText buffer)
                   (startPosition + 1) (endPosition + 1))).

Definition typeHintFromEditor (editor : TextEditor) (position : Point)
    : Async (option TypeHint) :=
  let* hackLanguage := await_async (getHackLanguageForBuffer (getBuffer editor)) in
  match extractWordAtPosition editor position with
  | None => Ret None
  | Some matchData =>
      let path := url_path (url_parse (getPath editor)) in
      let contents := getText editor in
      let* type :=
        await (Single (getType hackLanguage path contents (word matchData)
                         (row position + 1) (column position + 1))) in
      match type with
      | Some t => if truthy t then Ret (Some (mkTypeHint t (word_range matchData)))
                  else Ret None
      | None => Ret None
      end
  end.

Definition findDefinition (editor : TextEditor) (line column : Z)
    : Async (option Definition_) :=
  let* hackLanguage := await_async (getHackLanguageForBuffer (getBuffer editor)) in
  let u := url_parse (getPath editor) in
  let contents := getText editor in
  let buffer := getBuffer editor in
  let lineText := lineForRow buffer line in
  let* result :=
    await (Single (getDefinition hackLanguage (url_path u) contents
                     (line + 1) (column + 1) lineText)) in
  match result with
  | None | Some [] => Ret None
  | Some (pos :: _) =>
      Ret (Some {| def_file := getFilePath (loc_path pos) (url_protocol u) (url_host u);
                   def_line := loc_line pos - 1;
                   def_column := loc_column pos - 1 |})
  end.

Definition onDidSave (editor : TextEditor) : Async unit :=
  let path := url_path (url_parse (getPath editor)) in
  let contents := getText editor in
  let buffer := getBuffer editor in
  let* hackLanguage := await_async (getHackLanguageForBuffer buffer) in
  (* Update the HackWorker model with the contents of the file opened or saved. *)
  await (Single (updateFile hackLanguage path contents)) ;;;
  let* diagnostics :=
    try_catch (await (Single (getServerDiagnostics hackLanguage)))
      (fun err =>
         sync (logger_error "Hack: getServerDiagnostics failed" err) ;;;
         Ret None) in
  match diagnostics with
  | Some d =>
      sync (WriteLinterCache (getClientId buffer) d) ;;;
      (* Trigger the linter to catch the new diagnostics. *)
      sync (atom_commands_dispatch (editor_view editor) "linter:lint")
  | None => Ret tt
  end ;;;
  sync (Detached (updateDependencies hackLanguage)).

(** The operations of [module.exports], and what each call resolves to. *)
Inductive Invocation : Type :=
| call_findDiagnostics (editor : TextEditor)
| call_fetchCompletionsForEditor (editor : TextEditor) (prefix : string)
| call_formatSourceFromEditor (editor : TextEditor) (range : Range)
| call_typeHintFromEditor (editor : TextEditor) (position : Point)
| call_findDefinition (editor : TextEditor) (line column : Z)
| call_onDidSave (editor : TextEditor).

Inductive Answer : Type :=
| diagnostics_answer (errors : list mixed)
| completions_answer (completions : list Completion)
| source_answer (source : string)
| hint_answer (h : option TypeHint)
| definition_answer (d : option Definition_)
| void_answer.

Definition invoke (i : Invocation) : Async Answer :=
  match i with
  | call_findDiagnostics editor =>
      let* r := findDiagnostics editor in Ret (diagnostics_answer r)
  | call_fetchCompletionsForEditor editor prefix =>
      let* r := fetchCompletionsForEditor editor prefix in Ret (completions_answer r)
  | call_formatSourceFromEditor editor range =>
      let* r := formatSourceFromEditor editor range in Ret (source_answer r)
  | call_typeHintFromEditor editor position =>
      let* r := typeHintFromEditor editor position in Ret (hint_answer r)
  | call_findDefinition editor line column =>
      let* r := findDefinition editor line column in Ret (definition_answer r)
  | call_onDidSave editor =>
      onDidSave editor ;;; Ret void_answer
  end.

(** The promise a first access waits for, and what that wait leaves in
    the trace. *)
Definition probe (client : NuclideClient) (filePath : string) : Awaitable :=
  Promise_all (Single (client_exec client "which hh_client"))
              (Single (client_findNearestFile client ".hhconfig"
                         (pathUtil_dirname filePath))).

Definition probing (client : NuclideClient) (filePath : string) (ok : bool) : list Event :=
  map Called (calls (probe client filePath)) ++ [Resumed (probe client filePath) ok].

(** *** Reading aids for the statements about several calls *)

(** [keeps m w]: started in [w], and resumed after each await in whatever
    world the other tasks have left, no synchronous operation of [m] drops
    or replaces an entry of [clientToHackLanguage]. *)
Fixpoint keeps {A} (m : Async A) (w : World) : Prop :=
  match m with
  | Ret _ | Throw _ => True
  | Sync op k =>
      clientToHackLanguage w ⊆ clientToHackLanguage (perform op w).1
      /\ keeps (k (perform op w).2) (perform op w).1
  | Await a k => forall o w', keeps (k o) w'
  end.

Definition status_keeps {A} (s : Status A) : Prop :=
  match s with
  | Settled _ => True
  | Suspended a k => forall o w', keeps (k o) w'
  end.

(** An action whose call, if it makes one, satisfies [keeps]. *)
Definition keeps_action {A} (a : Action A) : Prop :=
  match a with
  | Spawn m => forall w, keeps m w
  | Wake _ _ => True
  end.

(** An action that, when it is a call, calls an exported operation. *)
Definition exported (a : Action Answer) : Prop :=
  match a with
  | Spawn m => exists i, m = invoke i
  | Wake _ _ => True
  end.

(** An action that, when it is a call, calls
    [createHackLanguageIfNotExisting] for a client with the id [clientId]. *)
Definition create_call (clientId : string) (a : Action HackLanguage) : Prop :=
  match a with
  | Spawn m =>
      exists client filePath,
        getID client = clientId /\ m = createHackLanguageIfNotExisting client filePath
  | Wake _ _ => True
  end.

(** Where a call of [createHackLanguageIfNotExisting] for [clientId] can
    stand: answered with the registry's entry, failed, or waiting for the
    probes it started when the registry had no entry. *)
Definition create_task (clientId : string) (w : World) (s : Status HackLanguage) : Prop :=
  (exists h, s = Settled (Resolved h) /\ clientToHackLanguage w !! clientId = Some h)
  \/ (exists e, s = Settled (Rejected e))
  \/ (exists client filePath w1,
        getID client = clientId
        /\ clientToHackLanguage w1 !! clientId = None
        /\ s = (run_sync (createHackLanguageIfNotExisting client filePath) w1).2).

(** Between [w0] and [w], for the key [clientId]: nothing was built while
    the key is absent; an entry that was there is the same and nothing was
    built; an entry that was not there is the one HackLanguage built. *)
Definition built_once (clientId : string) (w0 w : World) : Prop :=
  match clientToHackLanguage w !! clientId with
  | None => clientToHackLanguage w0 !! clientId = None /\ instances w = instances w0
  | Some h =>
      (clientToHackLanguage w0 !! clientId = Some h /\ instances w = instances w0)
      \/ (clientToHackLanguage w0 !! clientId = None
          /\ instances w = instances w0 ++ [ObjHackLanguage (hl_client h)])
  end.

Definition not_rejected {A} (s : Status A) : Prop :=
  forall e, s <> Settled (Rejected e).

Definition awaited {A} (s : Status A) : option Awaitable :=
  match s with
  | Settled _ => None
  | Suspended a _ => Some a
  end.

(** The probes answered when a task is woken never reject. *)
Definition answered (a : Action HackLanguage) : Prop :=
  match a with
  | Spawn _ => True
  | Wake _ env => forall client filePath, fulfilled (settle env (probe client filePath)) = true
  end.

(** [stretch D m ws w]: [m] stands at [w] in a synchronous stretch that began
    at [ws]; this stretch, and each one that follows an await, from whatever
    world it starts in, ends in a world that [D] relates to its start. *)
Fixpoint stretch {A} (D : World -> World -> Prop) (m : Async A) (ws w : World) : Prop :=
  match m with
  | Ret _ | Throw _ => D ws w
  | Sync op k => stretch D (k (perform op w).2) ws (perform op w).1
  | Await a k => D ws w /\ forall o w2, stretch D (k o) w2 w2
  end.

Definition status_stretch {A} (D : World -> World -> Prop) (s : Status A) : Prop :=
  match s with
  | Settled _ => True
  | Suspended a k => forall o w2, stretch D (k o) w2 w2
  end.

Definition action_stretch {A} (D : World -> World -> Prop) (a : Action A) : Prop :=
  match a with
  | Spawn m => forall w, stretch D m w w
  | Wake _ _ => True
  end.

(** Events that the module itself causes on the editor's side. *)
Definition loud (ev : Event) : bool :=
  match ev with
  | Logged _ _ | Dispatched _ _ => true
  | Called _ | Resumed _ _ => false
  end.

(** The relations between the start and the end of a stretch used below. *)
Definition same_cache_at (clientId : string) (ws w : World) : Prop :=
  clientToHackLinterCache w !! clientId = clientToHackLinterCache ws !! clientId.


Definition same_noise (ws w : World) : Prop :=
  List.filter loud (trace w) = List.filter loud (trace ws).

Definition balanced (ws w : World) : Prop :=
  clientToHackLanguage ws ⊆ clientToHackLanguage w
  /\ (length (instances w) + size (clientToHackLanguage ws)
      = length (instances ws) + size (clientToHackLanguage w))%nat.

(** The synchronous operations of [onDidSave] for a buffer of [clientId]. *)
Definition save_op (clientId : string) {X} (op : SyncOp X) : Prop :=
  match op with
  | WriteLinterCache k _ => k = clientId
  | logger_error _ _ | atom_commands_dispatch _ _ | Detached _ => True
  | _ => False
  end.

(** An action that, when it is a call, calls an exported operation other
    than [onDidSave]. *)
Definition reading (a : Action Answer) : Prop :=
  match a with
  | Spawn m => exists i, m = invoke i /\ forall editor, i <> call_onDidSave editor
  | Wake _ _ => True
  end.

(** An action that, when it is a call, calls an exported operation other
    than [onDidSave] on a buffer of [clientId]. *)
Definition not_saving_for (clientId : string) (a : Action Answer) : Prop :=
  match a with
  | Spawn m =>
      exists i, m = invoke i
                /\ forall editor, i = call_onDidSave editor ->
                                  getClientId (getBuffer editor) <> clientId
  | Wake _ _ => True
  end.

(** The editor an exported call is about. *)
Definition editor_of (i : Invocation) : TextEditor :=
  match i with
  | call_findDiagnostics editor
  | call_fetchCompletionsForEditor editor _
  | call_formatSourceFromEditor editor _
  | call_typeHintFromEditor editor _
  | call_findDefinition editor _ _
  | call_onDidSave editor => editor
  end.

(** ** Properties *)

Implicit Types (w : World) (env : Oracle) (client : NuclideClient) (h : HackLanguage).

(** *** Running a sequence *)

Lemma run_bind {A B} env (m : Async A) (f : A -> Async B) w :
  run env (bind m f) w =
  match run env m w with
  | (w1, Resolved a) => run env (f a) w1
  | (w1, Rejected e) => (w1, Rejected e)
  end.
Proof.
  revert w; induction m as [a|e|X op k IH|a k IH]; intros w; simpl; try reflexivity.
  - destruct (perform op w) as [w' x]. apply IH.
  - apply IH.
Qed.

Lemma run_await_async {A} env (m : Async A) w :
  run env (await_async m) w =
  (emit [Resumed OwnPromise true] (run env m w).1, (run env m w).2).
Proof.
  revert w; induction m as [a|e|X op k IH|a k IH]; intros w; simpl; try reflexivity.
  - destruct (perform op w) as [w' x]. apply IH.
  - apply IH.
Qed.

Lemma run_await env (a : Awaitable) w :
  run env (await a) w =
  (emit (map Called (calls a) ++ [Resumed a (fulfilled (settle env a))]) w, settle env a).
Proof. unfold await; simpl. destruct (settle env a); reflexivity. Qed.

(** *** The session registry, one call at a time *)

Lemma run_sync_create_hit client filePath w h :
  clientToHackLanguage w !! getID client = Some h ->
  run_sync (createHackLanguageIfNotExisting client filePath) w = (w, Settled (Resolved h)).
Proof. intros Hh. unfold createHackLanguageIfNotExisting; simpl. rewrite Hh. reflexivity. Qed.

Lemma run_create_hit env client filePath w h :
  clientToHackLanguage w !! getID client = Some h ->
  run env (createHackLanguageIfNotExisting client filePath) w = (w, Resolved h).
Proof. intros Hh. unfold createHackLanguageIfNotExisting; simpl. rewrite Hh. reflexivity. Qed.

Lemma run_create_first env client filePath w res nearestPath :
  clientToHackLanguage w !! getID client = None ->
  respond env (client_exec client "which hh_client") = Resolved res ->
  respond env (client_findNearestFile client ".hhconfig" (pathUtil_dirname filePath))
    = Resolved nearestPath ->
  exists w' h,
    run env (createHackLanguageIfNotExisting client filePath) w = (w', Resolved h)
    /\ clientToHackLanguage w' = <[getID client := h]> (clientToHackLanguage w)
    /\ clientToHackLinterCache w' = clientToHackLinterCache w
    /\ trace w' = trace w ++ probing client filePath true
    /\ instances w' = instances w ++ [ObjHackLanguage (hl_client h)]
    /\ hl_client h =
         if truthy (trim (stdout res)) && truthy_opt nearestPath
         then RealClient client else NullHackClient (length (heap w)).
Proof.
  intros Hmiss Hexec Hfind.
  unfold createHackLanguageIfNotExisting; simpl.
  rewrite Hmiss; simpl. rewrite Hexec, Hfind; simpl. rewrite Hmiss.
  destruct (truthy (trim (stdout res)) && truthy_opt nearestPath); simpl;
    eexists _, _; (split; [reflexivity|]); simpl;
    repeat split; try reflexivity;
    unfold instances; simpl; rewrite !List.filter_app; simpl;
    rewrite ?app_nil_r; reflexivity.
Qed.

Lemma run_create_rejected env client filePath w :
  clientToHackLanguage w !! getID client = None ->
  rejects (settle env (probe client filePath)) = true ->
  exists e,
    settle env (probe client filePath) = Rejected e
    /\ run env (createHackLanguageIfNotExisting client filePath) w
       = (emit (probing client filePath false) w, Rejected e).
Proof.
  intros Hmiss Hrej.
  destruct (settle env (probe client filePath)) as [v|e] eqn:Hs; [discriminate|].
  exists e; split; [reflexivity|].
  unfold createHackLanguageIfNotExisting; simpl. rewrite Hmiss; simpl.
  unfold probe in Hs; simpl in Hs. rewrite Hs. reflexivity.
Qed.

(** Whatever a call does, it leaves the linter cache alone. *)
Lemma run_create_cache env client filePath w w' o :
  run env (createHackLanguageIfNotExisting client filePath) w = (w', o) ->
  clientToHackLinterCache w' = clientToHackLinterCache w.
Proof.
  destruct (clientToHackLanguage w !! getID client) as [h|] eqn:Hh.
  - rewrite (run_create_hit env _ _ _ _ Hh). intros [= <- _]. reflexivity.
  - destruct (rejects (settle env (probe client filePath))) eqn:Hrej.
    + destruct (run_create_rejected env _ _ _ Hh Hrej) as (e & _ & ->).
      intros [= <- _]. reflexivity.
    + unfold rejects, probe in Hrej; simpl in Hrej.
      destruct (respond env (client_exec client "which hh_client")) as [res|] eqn:He;
        [|destruct (respond env (client_findNearestFile client ".hhconfig"
                                   (pathUtil_dirname filePath))); discriminate].
      destruct (respond env (client_findNearestFile client ".hhconfig"
                               (pathUtil_dirname filePath))) as [np|] eqn:Hf;
        [|discriminate].
      destruct (run_create_first env _ _ _ _ _ Hh He Hf) as (w1 & h & -> & _ & Hc & _).
      intros [= <- _]. exact Hc.
Qed.

(** createHackLanguageIfNotExisting_fast_path (claim C8): when the registry
    already holds an entry for the client's id, the call returns that entry
    in its first synchronous stretch: it never suspends, and the world,
    trace of outward calls included, is left as it was, so neither the shell
    command nor the file search is started. *)
Theorem createHackLanguageIfNotExisting_fast_path env client filePath w h :
  clientToHackLanguage w !! getID client = Some h ->
  run_sync (createHackLanguageIfNotExisting client filePath) w = (w, Settled (Resolved h))
  /\ run env (createHackLanguageIfNotExisting client filePath) w = (w, Resolved h).
Proof.
  intros Hh; split; [apply run_sync_create_hit | apply run_create_hit]; exact Hh.
Qed.

Lemma truthy_nonempty (s : string) : truthy s = true <-> s <> "".
Proof. destruct s; simpl; split; congruence. Qed.

Lemma truthy_opt_found (o : option string) :
  truthy_opt o = true <-> exists p, o = Some p /\ p <> "".
Proof.
  destruct o as [p|]; simpl.
  - rewrite truthy_nonempty. split; [eauto|]. intros (q & [= <-] & Hq); exact Hq.
  - split; [discriminate|]. intros (q & Hq & _); discriminate.
Qed.

(** capability_correctness (claim C2): on a first access (no entry for the
    client's id) whose two probes are answered, the call installs and
    returns a session; that session wraps the real client exactly when the
    trimmed standard output of the shell command is not empty and the upward
    search returned a path (a non-empty string); in every other case it
    wraps a NullHackClient built for the occasion. *)
Theorem capability_correctness env client filePath w res nearestPath :
  clientToHackLanguage w !! getID client = None ->
  respond env (client_exec client "which hh_client") = Resolved res ->
  respond env (client_findNearestFile client ".hhconfig" (pathUtil_dirname filePath))
    = Resolved nearestPath ->
  exists w' h,
    run env (createHackLanguageIfNotExisting client filePath) w = (w', Resolved h)
    /\ clientToHackLanguage w' !! getID client = Some h
    /\ (hl_client h = RealClient client <->
        trim (stdout res) <> "" /\ exists p, nearestPath = Some p /\ p <> "")
    /\ (~ (trim (stdout res) <> "" /\ exists p, nearestPath = Some p /\ p <> "") ->
        hl_client h = NullHackClient (length (heap w))
        /\ heap w' !! length (heap w) = Some ObjNullHackClient).
Proof.
  intros Hmiss Hexec Hfind.
  unfold createHackLanguageIfNotExisting; simpl.
  rewrite Hmiss; simpl. rewrite Hexec, Hfind; simpl. rewrite Hmiss.
  pose proof (truthy_nonempty (trim (stdout res))) as Hout.
  pose proof (truthy_opt_found nearestPath) as Hnear.
  destruct (truthy (trim (stdout res))), (truthy_opt nearestPath); simpl;
    eexists _, _; (split; [reflexivity|]); simpl;
    (split; [apply lookup_insert_eq|]).
  1: { assert (Hboth : trim (stdout res) <> ""
                       /\ exists p, nearestPath = Some p /\ p <> "")
         by (split; [apply Hout | apply Hnear]; reflexivity).
       split; [split; [intros _; exact Hboth | reflexivity]
              | intros Hn; destruct (Hn Hboth)]. }
  all: split;
    [ split; [discriminate|];
      intros [H1 H2]; apply Hout in H1; apply Hnear in H2; discriminate
    | intros _; split; [reflexivity|];
      rewrite <- app_assoc; apply list_lookup_middle; reflexivity ].
Qed.

(** probe_failure_propagates (claim C6): on a first access, when the shell
    command or the file search rejects, the call rejects with the error of
    one of the two, and neither the registry nor the heap changes: nothing
    is built and nothing is installed. *)
Theorem probe_failure_propagates env client filePath w :
  clientToHackLanguage w !! getID client = None ->
  rejects (respond env (client_exec client "which hh_client")) = true
  \/ rejects (respond env (client_findNearestFile client ".hhconfig"
                             (pathUtil_dirname filePath))) = true ->
  exists e w',
    run env (createHackLanguageIfNotExisting client filePath) w = (w', Rejected e)
    /\ (respond env (client_exec client "which hh_client") = Rejected e
        \/ respond env (client_findNearestFile client ".hhconfig"
                          (pathUtil_dirname filePath)) = Rejected e)
    /\ clientToHackLanguage w' = clientToHackLanguage w
    /\ heap w' = heap w.
Proof.
  intros Hmiss Hrej.
  assert (Hr : rejects (settle env (probe client filePath)) = true).
  { unfold probe; simpl.
    destruct (respond env (client_exec client "which hh_client")),
             (respond env (client_findNearestFile client ".hhconfig"
                             (pathUtil_dirname filePath)));
      simpl in *; try reflexivity. destruct Hrej; discriminate. }
  destruct (run_create_rejected env _ _ _ Hmiss Hr) as (e & Hs & Hrun).
  exists e, (emit (probing client filePath false) w).
  split; [exact Hrun|]. split; [|split; reflexivity].
  unfold probe in Hs; simpl in Hs.
  destruct (respond env (client_exec client "which hh_client")) as [x|e1],
           (respond env (client_findNearestFile client ".hhconfig"
                           (pathUtil_dirname filePath))) as [y|e2];
    simpl in Hs; try discriminate; injection Hs as <-; auto.
  destruct (left_rejects_first env); auto.
Qed.

(** *** The editor-facing operations *)

(** findDiagnostics_merge (claim C4): once the session is resolved and
    getDiagnostics has answered, findDiagnostics resolves to the request's
    own diagnostics followed by the server diagnostics cached under the
    buffer's client id, both in their order; with no cache entry it
    resolves to the request's diagnostics alone. *)
Theorem findDiagnostics_merge env editor w w1 h (errors : list mixed) :
  run env (getHackLanguageForBuffer (getBuffer editor)) w = (w1, Resolved h) ->
  respond env (getDiagnostics h (url_path (url_parse (getPath editor))) (getText editor))
    = Resolved errors ->
  exists w',
    run env (findDiagnostics editor) w =
    (w', Resolved
           match clientToHackLinterCache w !! getClientId (getBuffer editor) with
           | Some cached => errors ++ cached
           | None => errors
           end).
Proof.
  intros Hs Hd. unfold findDiagnostics.
  rewrite run_bind, run_await_async, Hs. simpl. rewrite Hd. simpl.
  rewrite (run_create_cache _ _ _ _ _ _ Hs).
  destruct (clientToHackLinterCache w !! getClientId (getBuffer editor));
    eexists; reflexivity.
Qed.

(** findDefinition_coordinates (claim C3): a lookup at the 0-based
    (line, column) calls getDefinition, once, with line + 1 and column + 1;
    when the answer's first location is 1-based (L, C), the caller receives
    line L - 1 and column C - 1. *)
Theorem findDefinition_coordinates env editor (line column : Z) w w1 h :
  run env (getHackLanguageForBuffer (getBuffer editor)) w = (w1, Resolved h) ->
  let request :=
    getDefinition h (url_path (url_parse (getPath editor))) (getText editor)
                  (line + 1) (column + 1) (lineForRow (getBuffer editor) line) in
  exists w' r,
    run env (findDefinition editor line column) w = (w', r)
    /\ trace w' = trace w1 ++
         [Resumed OwnPromise true;
          Called request; Resumed (Single request) (fulfilled (respond env request))]
    /\ forall pos rest,
        respond env request = Resolved (Some (pos :: rest)) ->
        exists d, r = Resolved (Some d)
                  /\ def_line d = loc_line pos - 1
                  /\ def_column d = loc_column pos - 1.
Proof.
  intros Hs request. unfold findDefinition.
  rewrite run_bind, run_await_async, Hs. simpl. fold request.
  destruct (respond env request) as [[[|pos rest]|]|e]; simpl;
    eexists _, _; (split; [reflexivity|]);
    (split; [simpl; rewrite <- app_assoc; reflexivity|]);
    intros pos' rest' [=]; subst.
  eexists; split; [reflexivity|]. split; reflexivity.
Qed.

(** findDefinition_none_iff (claim C7): once getDefinition has answered,
    findDefinition resolves to null exactly when the answer is absent or an
    empty list; otherwise the location it resolves to is computed from the
    first element of the list, whatever follows it. *)
Theorem findDefinition_none_iff env editor (line column : Z) w w1 h result :
  run env (getHackLanguageForBuffer (getBuffer editor)) w = (w1, Resolved h) ->
  respond env
    (getDefinition h (url_path (url_parse (getPath editor))) (getText editor)
                   (line + 1) (column + 1) (lineForRow (getBuffer editor) line))
    = Resolved result ->
  exists w' r,
    run env (findDefinition editor line column) w = (w', Resolved r)
    /\ (r = None <-> result = None \/ result = Some [])
    /\ forall pos rest,
        result = Some (pos :: rest) ->
        r = Some {| def_file := getFilePath (loc_path pos)
                                  (url_protocol (url_parse (getPath editor)))
                                  (url_host (url_parse (getPath editor)));
                    def_line := loc_line pos - 1;
                    def_column := loc_column pos - 1 |}.
Proof.
  intros Hs Hr. unfold findDefinition.
  rewrite run_bind, run_await_async, Hs. simpl. rewrite Hr.
  destruct result as [[|pos rest]|]; simpl;
    eexists _, _; (split; [reflexivity|]); split.
  - split; auto.
  - intros ? ? [=].
  - split; [discriminate|]. intros [|]; discriminate.
  - intros ? ? [= <- <-]. reflexivity.
  - split; auto.
  - intros ? ? [=].
Qed.

(** onDidSave_server_diagnostics_failure (claim C5): when updateFile
    succeeds and getServerDiagnostics then fails with an error, onDidSave
    still resolves (its caller sees no exception); the trace after the
    session is resolved reads: updateFile called and completed, then
    getServerDiagnostics called and failed, then the error logged, then
    updateDependencies called; no linter command is dispatched, and the
    linter cache is what it was. *)
Theorem onDidSave_server_diagnostics_failure env editor w w1 h err :
  run env (getHackLanguageForBuffer (getBuffer editor)) w = (w1, Resolved h) ->
  respond env (updateFile h (url_path (url_parse (getPath editor))) (getText editor))
    = Resolved tt ->
  respond env (getServerDiagnostics h) = Rejected err ->
  exists w',
    run env (onDidSave editor) w = (w', Resolved tt)
    /\ clientToHackLinterCache w' = clientToHackLinterCache w
    /\ trace w' = trace w1 ++
         [Resumed OwnPromise true;
          Called (updateFile h (url_path (url_parse (getPath editor))) (getText editor));
          Resumed (Single (updateFile h (url_path (url_parse (getPath editor)))
                             (getText editor))) true;
          Called (getServerDiagnostics h);
          Resumed (Single (getServerDiagnostics h)) false;
          Logged "Hack: getServerDiagnostics failed" err;
          Called (updateDependencies h)].
Proof.
  intros Hs Hu Hg. unfold onDidSave.
  rewrite run_bind, run_await_async, Hs. simpl. rewrite Hu. simpl. rewrite Hg. simpl.
  eexists; split; [reflexivity|]. simpl. split.
  - apply (run_create_cache _ _ _ _ _ _ Hs).
  - rewrite <- !app_assoc. reflexivity.
Qed.

(** *** Substring search *)

Lemma startsWith_spec (s t : string) :
  startsWith s t = true <-> exists r, s = t +:+ r.
Proof.
  revert s; induction t as [|b t IH]; intros s; simpl.
  - split; [eauto|reflexivity].
  - destruct s as [|a s]; simpl.
    + split; [discriminate|]. intros (r & [=]).
    + destruct (Ascii.eqb a b) eqn:Hab.
      * apply Ascii.eqb_eq in Hab as ->. rewrite IH. split.
        -- intros (r & ->); eauto.
        -- intros (r & [= ->]); eauto.
      * apply Ascii.eqb_neq in Hab. split; [discriminate|].
        intros (r & [= -> _]). congruence.
Qed.

Lemma indexOfFrom_spec (s t : string) (i : Z) :
  0 <= i ->
  (0 <=? indexOfFrom s t i) = true <-> exists pre post, s = pre +:+ t +:+ post.
Proof.
  revert i; induction s as [|c s IH]; intros i Hi; simpl.
  - destruct (startsWith "" t) eqn:Hp.
    + apply startsWith_spec in Hp as (r & Hr).
      split; [intros _; exists "", r; exact Hr | intros _; apply Z.leb_le; exact Hi].
    + split; [discriminate|]. intros (pre & post & Heq).
      destruct pre; [|discriminate]. simpl in Heq.
      assert (startsWith "" t = true) by (apply startsWith_spec; eauto).
      congruence.
  - destruct (startsWith (String c s) t) eqn:Hp.
    + apply startsWith_spec in Hp as (r & Hr).
      split; [intros _; exists "", r; exact Hr | intros _; apply Z.leb_le; exact Hi].
    + rewrite IH by lia. split.
      * intros (pre & post & ->). exists (String c pre), post. reflexivity.
      * intros (pre & post & Heq). destruct pre as [|c' pre]; simpl in Heq.
        -- assert (startsWith (String c s) t = true) by (apply startsWith_spec; eauto).
           congruence.
        -- injection Heq as _ ->. eauto.
Qed.

Lemma indexOf_spec (s t : string) :
  (0 <=? indexOf s t) = true <-> exists pre post, s = pre +:+ t +:+ post.
Proof. apply indexOfFrom_spec. lia. Qed.

Lemma filter_sublist {A} (f : A -> bool) (l : list A) : sublist (List.filter f l) l.
Proof.
  induction l as [|x l IH]; simpl; [constructor|].
  destruct (f x); constructor; exact IH.
Qed.

(** fetchCompletionsForEditor_filter (claim C10): once getCompletions has
    answered, fetchCompletionsForEditor resolves to the answer filtered, in
    the answer's order, by the test it applies; a completion is kept exactly
    when its matchText, lower-cased, contains the lower-cased prefix as a
    substring. *)
Theorem fetchCompletionsForEditor_filter env editor (prefix : string) w w1 h completions :
  run env (getHackLanguageForBuffer (getBuffer editor)) w = (w1, Resolved h) ->
  respond env
    (getCompletions h (url_path (url_parse (getPath editor))) (getText editor)
       (characterIndexForPosition (getBuffer editor)
          (getLastCursor_getBufferPosition editor)))
    = Resolved completions ->
  exists w' result,
    run env (fetchCompletionsForEditor editor prefix) w = (w', Resolved result)
    /\ result =
       List.filter
         (fun c => 0 <=? indexOf (toLowerCase (matchText c)) (toLowerCase prefix))
         completions
    /\ sublist result completions
    /\ forall c,
        c ∈ result <->
        c ∈ completions
        /\ exists pre post,
            toLowerCase (matchText c) = pre +:+ toLowerCase prefix +:+ post.
Proof.
  intros Hs Hc. unfold fetchCompletionsForEditor.
  rewrite run_bind, run_await_async, Hs. simpl. rewrite Hc. simpl.
  eexists _, _; split; [reflexivity|]. split; [reflexivity|].
  split; [apply filter_sublist|].
  intros c. rewrite !list_elem_of_In, List.filter_In, indexOf_spec. reflexivity.
Qed.

(** *** Several calls in flight: the registry only grows *)

Lemma keeps_bind {A B} (m : Async A) (f : A -> Async B) w :
  keeps m w -> (forall a w', keeps (f a) w') -> keeps (bind m f) w.
Proof.
  intros Hm Hf. revert w Hm.
  induction m as [a|e|X op k IH|a k IH]; intros w Hm; simpl in *.
  - apply Hf.
  - exact I.
  - destruct Hm as [Hsub Hk]. split; [exact Hsub|]. apply IH, Hk.
  - intros o w'. apply IH, Hm.
Qed.

Lemma keeps_try_catch {A} (m : Async A) (handler : JsError -> Async A) w :
  keeps m w -> (forall e w', keeps (handler e) w') -> keeps (try_catch m handler) w.
Proof.
  intros Hm Hh. revert w Hm.
  induction m as [a|e|X op k IH|a k IH]; intros w Hm; simpl in *.
  - exact I.
  - apply Hh.
  - destruct Hm as [Hsub Hk]. split; [exact Hsub|]. apply IH, Hk.
  - intros o w'. apply IH, Hm.
Qed.

Lemma keeps_await_async {A} (m : Async A) w : keeps m w -> keeps (await_async m) w.
Proof.
  revert w; induction m as [a|e|X op k IH|a k IH]; intros w Hm; simpl in *.
  - intros _ _; exact I.
  - intros _ _; exact I.
  - destruct Hm as [Hsub Hk]. split; [exact Hsub|]. apply IH, Hk.
  - intros o w'. apply IH, Hm.
Qed.

Lemma keeps_await (a : Awaitable) w : keeps (await a) w.
Proof. simpl. intros [v|e] w'; exact I. Qed.

Lemma keeps_create client filePath w :
  keeps (createHackLanguageIfNotExisting client filePath) w.
Proof.
  unfold createHackLanguageIfNotExisting; simpl.
  split; [reflexivity|].
  destruct (clientToHackLanguage w !! getID client); simpl; [exact I|].
  intros [[res nearestPath]|e] w'; simpl; [|exact I].
  split; [reflexivity|].
  destruct (clientToHackLanguage w' !! getID client) eqn:Hmiss; simpl; [exact I|].
  destruct (truthy (trim (stdout res)) && truthy_opt nearestPath); simpl;
    repeat split; try reflexivity; apply insert_subseteq; exact Hmiss.
Qed.

Ltac keeps_tree :=
  repeat first
    [ exact I
    | reflexivity
    | apply keeps_await
    | apply keeps_await_async
    | apply keeps_create
    | apply keeps_bind
    | apply keeps_try_catch
    | progress (intros; simpl)
    | split
    | match goal with
      | |- keeps (match ?x with _ => _ end) _ => destruct x
      | |- keeps (if ?x then _ else _) _ => destruct x
      end ].

Lemma keeps_invoke (i : Invocation) w : keeps (invoke i) w.
Proof.
  destruct i; unfold invoke, findDiagnostics, fetchCompletionsForEditor,
    formatSourceFromEditor, typeHintFromEditor, findDefinition, onDidSave,
    getHackLanguageForBuffer; keeps_tree.
Qed.

Lemma run_sync_keeps {A} (m : Async A) w :
  keeps m w ->
  clientToHackLanguage w ⊆ clientToHackLanguage (run_sync m w).1
  /\ status_keeps (run_sync m w).2.
Proof.
  revert w; induction m as [a|e|X op k IH|a k IH]; intros w Hm; simpl in *.
  - split; [reflexivity|exact I].
  - split; [reflexivity|exact I].
  - destruct Hm as [Hsub Hk]. destruct (perform op w) as [w1 x]; simpl in *.
    destruct (IH x w1 Hk) as [Hsub' Hs]. split; [|exact Hs].
    etrans; eassumption.
  - split; [reflexivity|exact Hm].
Qed.

Lemma resume_keeps {A} env (s : Status A) w :
  status_keeps s ->
  clientToHackLanguage w ⊆ clientToHackLanguage (resume env s w).1
  /\ status_keeps (resume env s w).2.
Proof.
  destruct s as [o|a k]; simpl; intros Hs.
  - split; [reflexivity|exact I].
  - apply (run_sync_keeps (k (settle env a))
             (emit [Resumed a (fulfilled (settle env a))] w)), Hs.
Qed.

Lemma act_keeps {A} (a : Action A) w (pool : Pool A) :
  keeps_action a ->
  Forall status_keeps pool ->
  clientToHackLanguage w ⊆ clientToHackLanguage (act (w, pool) a).1
  /\ Forall status_keeps (act (w, pool) a).2.
Proof.
  intros Ha Hpool. destruct a as [m|i env]; simpl.
  - destruct (run_sync_keeps m w (Ha w)) as [Hsub Hs].
    destruct (run_sync m w) as [w' s]; simpl in *.
    split; [exact Hsub|]. apply Forall_app; split; [exact Hpool|].
    constructor; [exact Hs|constructor].
  - destruct (pool !! i) as [s|] eqn:Hi; simpl; [|split; [reflexivity|exact Hpool]].
    assert (Hsk : status_keeps s) by (eapply Forall_lookup_1; eassumption).
    destruct (resume_keeps env s w Hsk) as [Hsub Hs].
    destruct (resume env s w) as [w' s']; simpl in *.
    split; [exact Hsub|]. apply Forall_insert; assumption.
Qed.

Lemma execute_app {A} (acts1 acts2 : list (Action A)) (cfg : World * Pool A) :
  execute (acts1 ++ acts2) cfg = execute acts2 (execute acts1 cfg).
Proof. unfold execute. apply fold_left_app. Qed.

Lemma execute_keeps {A} (acts : list (Action A)) w (pool : Pool A) :
  Forall keeps_action acts ->
  Forall status_keeps pool ->
  clientToHackLanguage w ⊆ clientToHackLanguage (execute acts (w, pool)).1
  /\ Forall status_keeps (execute acts (w, pool)).2.
Proof.
  intros Hacts. revert w pool.
  induction Hacts as [|a acts Ha _ IH]; intros w pool Hpool.
  - split; [reflexivity|exact Hpool].
  - change (execute (a :: acts) (w, pool)) with (execute acts (act (w, pool) a)).
    destruct (act_keeps a w pool Ha Hpool) as [Hsub Hpool'].
    destruct (act (w, pool) a) as [w1 pool1]; simpl in Hsub, Hpool'.
    destruct (IH w1 pool1 Hpool') as [Hsub' Hfinal].
    split; [transitivity (clientToHackLanguage w1); assumption|exact Hfinal].
Qed.

Lemma execute_registry_mono {A} (before after : list (Action A)) w0 :
  Forall keeps_action before ->
  Forall keeps_action after ->
  clientToHackLanguage (execute before (start w0)).1
  ⊆ clientToHackLanguage (execute (before ++ after) (start w0)).1.
Proof.
  intros Hb Ha. rewrite execute_app.
  destruct (execute_keeps before w0 [] Hb (Forall_nil_2 _)) as [_ Hpool].
  change (Forall status_keeps (execute before (start w0)).2) in Hpool.
  destruct (execute before (start w0)) as [w1 pool1]; simpl in *.
  apply (execute_keeps after w1 pool1 Ha Hpool).
Qed.

Lemma exported_keeps (acts : list (Action Answer)) :
  Forall exported acts -> Forall keeps_action acts.
Proof.
  intros Hacts. eapply Forall_impl; [exact Hacts|].
  intros [m|i env]; simpl; [|auto].
  intros [inv ->] w'. apply keeps_invoke.
Qed.

(** registry_entries_are_kept (claim C9): take any interleaving of calls of
    the exported operations and of resumptions of their awaits, cut at any
    point; an entry that the registry holds at the cut, key and instance,
    is still there, unchanged, at the end. *)
Theorem registry_entries_are_kept (before after : list (Action Answer)) w0
    (clientId : string) h :
  Forall exported before ->
  Forall exported after ->
  clientToHackLanguage (execute before (start w0)).1 !! clientId = Some h ->
  clientToHackLanguage (execute (before ++ after) (start w0)).1 !! clientId = Some h.
Proof.
  intros Hb Ha Hh. eapply lookup_weaken; [exact Hh|].
  apply execute_registry_mono; apply exported_keeps; assumption.
Qed.

(** *** Several calls in flight for one client id *)

Lemma run_sync_create_miss client filePath w :
  clientToHackLanguage w !! getID client = None ->
  (run_sync (createHackLanguageIfNotExisting client filePath) w).1
  = emit (map Called (calls (probe client filePath))) w
  /\ awaited (run_sync (createHackLanguageIfNotExisting client filePath) w).2
    = Some (probe client filePath).
Proof.
  intros Hmiss. unfold createHackLanguageIfNotExisting; simpl.
  rewrite Hmiss; simpl. split; reflexivity.
Qed.

Lemma resume_waiting env client filePath w1 w :
  clientToHackLanguage w1 !! getID client = None ->
  let s := (run_sync (createHackLanguageIfNotExisting client filePath) w1).2 in
  match settle env (probe client filePath) with
  | Rejected e =>
      resume env s w
      = (emit [Resumed (probe client filePath) false] w, Settled (Rejected e))
  | Resolved _ =>
      match clientToHackLanguage w !! getID client with
      | Some h =>
          resume env s w
          = (emit [Resumed (probe client filePath) true] w, Settled (Resolved h))
      | None =>
          exists w' h,
            resume env s w = (w', Settled (Resolved h))
            /\ clientToHackLanguage w' = <[getID client := h]> (clientToHackLanguage w)
            /\ instances w' = instances w ++ [ObjHackLanguage (hl_client h)]
      end
  end.
Proof.
  intros Hmiss. unfold createHackLanguageIfNotExisting; simpl.
  rewrite Hmiss; simpl.
  destruct (respond env (client_exec client "which hh_client")) as [res|e1],
           (respond env (client_findNearestFile client ".hhconfig"
                           (pathUtil_dirname filePath))) as [np|e2];
    simpl; try reflexivity.
  destruct (clientToHackLanguage w !! getID client) as [h|] eqn:Hw; simpl;
    [reflexivity|].
  destruct (truthy (trim (stdout res)) && truthy_opt np); simpl;
    eexists _, _; (split; [reflexivity|]); simpl; (split; [reflexivity|]);
    unfold instances; simpl; rewrite !List.filter_app; simpl;
    rewrite ?app_nil_r; reflexivity.
Qed.

Lemma create_task_mono clientId w w' s :
  (forall h, clientToHackLanguage w !! clientId = Some h ->
             clientToHackLanguage w' !! clientId = Some h) ->
  create_task clientId w s -> create_task clientId w' s.
Proof.
  intros Hmono [(h & -> & Hh)|[He|Hwait]].
  - left. exists h. split; [reflexivity|apply Hmono, Hh].
  - right; left; exact He.
  - right; right; exact Hwait.
Qed.

Lemma act_create clientId w0 w (pool : Pool HackLanguage) a :
  create_call clientId a ->
  Forall (create_task clientId w) pool ->
  built_once clientId w0 w ->
  Forall (create_task clientId (act (w, pool) a).1) (act (w, pool) a).2
  /\ built_once clientId w0 (act (w, pool) a).1
  /\ (answered a -> Forall not_rejected pool -> Forall not_rejected (act (w, pool) a).2).
Proof.
  intros Ha Hpool Hb. destruct a as [m|i env]; cbn [act].
  - destruct Ha as (client & filePath & <- & ->).
    destruct (clientToHackLanguage w !! getID client) as [h|] eqn:Hw.
    + rewrite (run_sync_create_hit _ _ _ _ Hw). cbn [fst snd]. split_and!.
      * apply Forall_app; split; [exact Hpool|].
        constructor; [|constructor]. left; eauto.
      * exact Hb.
      * intros _ Hnr. apply Forall_app; split; [exact Hnr|].
        constructor; [|constructor]. intros e; discriminate.
    + destruct (run_sync_create_miss client filePath w Hw) as [Hw1 Haw].
      destruct (run_sync (createHackLanguageIfNotExisting client filePath) w)
        as [w1 s] eqn:Hrun.
      cbn [fst snd] in *. subst w1. split_and!.
      * apply Forall_app; split; [exact Hpool|].
        constructor; [|constructor]. right; right.
        exists client, filePath, w. rewrite Hrun. auto.
      * exact Hb.
      * intros _ Hnr. apply Forall_app; split; [exact Hnr|].
        constructor; [|constructor]. intros e ->; discriminate.
  - destruct (pool !! i) as [s|] eqn:Hi; cbn [fst snd]; [|auto].
    assert (Hs : create_task clientId w s) by (eapply Forall_lookup_1; eassumption).
    destruct Hs as [(h & -> & Hh)|[(e & ->)|(client & filePath & w1 & <- & Hmiss1 & ->)]].
    + cbn [resume fst snd]. rewrite list_insert_id by exact Hi. auto.
    + cbn [resume fst snd]. rewrite list_insert_id by exact Hi. auto.
    + pose proof (resume_waiting env client filePath w1 w Hmiss1) as Hres.
      cbv zeta in Hres.
      destruct (settle env (probe client filePath)) as [v|e] eqn:Hset.
      * destruct (clientToHackLanguage w !! getID client) as [h|] eqn:Hw.
        -- rewrite Hres; cbn [fst snd]. split_and!.
           ++ apply Forall_insert; [exact Hpool|]. left; eauto.
           ++ exact Hb.
           ++ intros _ Hnr. apply Forall_insert; [exact Hnr|].
              intros e; discriminate.
        -- destruct Hres as (w' & h & -> & Hreg & Hinst). cbn [fst snd]. split_and!.
           ++ apply Forall_insert.
              ** eapply Forall_impl; [exact Hpool|]. intros s'.
                 apply create_task_mono. intros h' Hh'. congruence.
              ** left. exists h. split; [reflexivity|].
                 rewrite Hreg. apply lookup_insert_eq.
           ++ unfold built_once in *. rewrite Hreg, lookup_insert_eq.
              rewrite Hw in Hb. destruct Hb as [H0 Hi0].
              right. split; [exact H0|]. rewrite Hinst, Hi0. reflexivity.
           ++ intros _ Hnr. apply Forall_insert; [exact Hnr|].
              intros e; discriminate.
      * rewrite Hres; cbn [fst snd]. split_and!.
        -- apply Forall_insert; [exact Hpool|]. right; left; eauto.
        -- exact Hb.
        -- intros Hans. specialize (Hans client filePath).
           rewrite Hset in Hans. discriminate.
Qed.

Lemma execute_create clientId w0 (acts : list (Action HackLanguage)) w pool :
  Forall (create_call clientId) acts ->
  Forall (create_task clientId w) pool ->
  built_once clientId w0 w ->
  Forall (create_task clientId (execute acts (w, pool)).1) (execute acts (w, pool)).2
  /\ built_once clientId w0 (execute acts (w, pool)).1
  /\ (Forall answered acts -> Forall not_rejected pool ->
      Forall not_rejected (execute acts (w, pool)).2).
Proof.
  intros Hacts. revert w pool.
  induction Hacts as [|a acts Ha _ IH]; intros w pool Hpool Hb.
  - cbn. auto.
  - change (execute (a :: acts) (w, pool)) with (execute acts (act (w, pool) a)).
    destruct (act_create clientId w0 w pool a Ha Hpool Hb) as (Hpool' & Hb' & Hnr').
    destruct (act (w, pool) a) as [w1 pool1]; cbn [fst snd] in *.
    destruct (IH w1 pool1 Hpool' Hb') as (Hfin & Hbfin & Hnrfin).
    split_and!; [exact Hfin|exact Hbfin|].
    intros Hans Hnr. apply Forall_cons in Hans as [Hans1 Hans2]. auto.
Qed.

Lemma create_call_keeps clientId (acts : list (Action HackLanguage)) :
  Forall (create_call clientId) acts -> Forall keeps_action acts.
Proof.
  intros Hacts. eapply Forall_impl; [exact Hacts|].
  intros [m|i env]; simpl; [|auto].
  intros (client & filePath & _ & ->) w'. apply keeps_create.
Qed.

(** single_session (claim C1): take any number of calls of
    createHackLanguageIfNotExisting for clients with one and the same id,
    started and resumed in any order, with any probe results. At every
    point of the run: (1) every caller that has been answered holds the
    very instance the registry maps the id to, so all answered callers hold
    the same one; (2) over the whole run at most one HackLanguage was
    built, the one installed, and none if the id had an entry from the
    start; (3) when no probe rejects, no caller fails; (4) a caller still
    waiting, once its probes are answered, is handed the installed
    instance: the one already there if another caller came first, whatever
    its own probes say; (5) an entry installed at some point of the run is
    the entry at every later point. *)
Theorem single_session (clientId : string) (acts : list (Action HackLanguage)) w0 :
  Forall (create_call clientId) acts ->
  let w := (execute acts (start w0)).1 in
  let pool := (execute acts (start w0)).2 in
  (forall i h, pool !! i = Some (Settled (Resolved h)) ->
               clientToHackLanguage w !! clientId = Some h)
  /\ built_once clientId w0 w
  /\ (Forall answered acts -> forall i e, pool !! i <> Some (Settled (Rejected e)))
  /\ (forall i a k env,
        pool !! i = Some (Suspended a k) ->
        fulfilled (settle env a) = true ->
        exists w' h,
          resume env (Suspended a k) w = (w', Settled (Resolved h))
          /\ clientToHackLanguage w' !! clientId = Some h
          /\ (forall h0, clientToHackLanguage w !! clientId = Some h0 -> h = h0)
          /\ built_once clientId w0 w')
  /\ (forall before after h,
        acts = before ++ after ->
        clientToHackLanguage (execute before (start w0)).1 !! clientId = Some h ->
        clientToHackLanguage w !! clientId = Some h).
Proof.
  intros Hacts w pool.
  assert (Hb0 : built_once clientId w0 w0).
  { unfold built_once. destruct (clientToHackLanguage w0 !! clientId); auto. }
  destruct (execute_create clientId w0 acts w0 [] Hacts (Forall_nil_2 _) Hb0)
    as (Hpool & Hb & Hnr).
  change (Forall (create_task clientId w) pool) in Hpool.
  change (built_once clientId w0 w) in Hb.
  change (Forall answered acts -> Forall (@not_rejected HackLanguage) [] ->
          Forall not_rejected pool) in Hnr.
  split_and!.
  - intros i h Hi.
    destruct (Forall_lookup_1 _ _ _ _ Hpool Hi)
      as [(h' & [= <-] & Hh)|[(e & [=])|(c & p & w1 & <- & Hmiss & Hs)]];
      [exact Hh|].
    destruct (run_sync_create_miss c p w1 Hmiss) as [_ Haw].
    rewrite <- Hs in Haw. discriminate.
  - exact Hb.
  - intros Hans i e Hi.
    exact (Forall_lookup_1 _ _ _ _ (Hnr Hans (Forall_nil_2 _)) Hi e eq_refl).
  - intros i a k env Hi Hok.
    destruct (Forall_lookup_1 _ _ _ _ Hpool Hi)
      as [(h' & [=] & _)|[(e & [=])|(c & p & w1 & <- & Hmiss & Hs)]].
    destruct (run_sync_create_miss c p w1 Hmiss) as [_ Haw].
    rewrite <- Hs in Haw. injection Haw as ->.
    pose proof (resume_waiting env c p w1 w Hmiss) as Hres. cbv zeta in Hres.
    rewrite <- Hs in Hres.
    destruct (settle env (probe c p)) as [v|e]; [|discriminate].
    destruct (clientToHackLanguage w !! getID c) as [h|] eqn:Hw.
    + exists (emit [Resumed (probe c p) true] w), h.
      split_and!; [exact Hres|exact Hw|congruence|].
      unfold built_once in *. cbn. rewrite Hw in *. exact Hb.
    + destruct Hres as (w' & h & Hres & Hreg & Hinst). exists w', h.
      split_and!; [exact Hres| |discriminate|].
      * rewrite Hreg. apply lookup_insert_eq.
      * unfold built_once in *. rewrite Hreg, lookup_insert_eq.
        rewrite Hw in Hb. destruct Hb as [H0 Hi0].
        right. split; [exact H0|]. rewrite Hinst, Hi0. reflexivity.
  - intros before after h Hsplit Hh. subst acts.
    apply Forall_app in Hacts as [Hbefore Hafter].
    eapply lookup_weaken; [exact Hh|].
    apply execute_registry_mono; apply (create_call_keeps clientId); assumption.
Qed.

(** ** Further properties of the operations *)

(** *** Saving *)

Lemma run_create_installed env client filePath w w1 h :
  run env (createHackLanguageIfNotExisting client filePath) w = (w1, Resolved h) ->
  clientToHackLanguage w1 !! getID client = Some h.
Proof.
  destruct (clientToHackLanguage w !! getID client) as [h0|] eqn:Hh.
  - rewrite (run_create_hit env _ _ _ _ Hh). intros [= <- <-]. exact Hh.
  - destruct (rejects (settle env (probe client filePath))) eqn:Hrej.
    + destruct (run_create_rejected env _ _ _ Hh Hrej) as (e & _ & ->). discriminate.
    + unfold rejects, probe in Hrej; simpl in Hrej.
      destruct (respond env (client_exec client "which hh_client")) as [res|] eqn:He;
        [|destruct (respond env (client_findNearestFile client ".hhconfig"
                                   (pathUtil_dirname filePath))); discriminate].
      destruct (respond env (client_findNearestFile client ".hhconfig"
                               (pathUtil_dirname filePath))) as [np|] eqn:Hf;
        [|discriminate].
      destruct (run_create_first env _ _ _ _ _ Hh He Hf) as (w2 & h2 & -> & Hreg & _).
      intros [= <- <-]. rewrite Hreg. apply lookup_insert_eq.
Qed.

(** first_access_effects: a first access whose probes are answered starts
    exactly two calls, the shell command [which hh_client] and the search for
    [.hhconfig] from the directory of the file, awaits them together, adds
    the one key of the client to the registry, builds one HackLanguage and
    leaves the linter cache alone. *)
Theorem first_access_effects env client filePath w res nearestPath :
  clientToHackLanguage w !! getID client = None ->
  respond env (client_exec client "which hh_client") = Resolved res ->
  respond env (client_findNearestFile client ".hhconfig" (pathUtil_dirname filePath))
    = Resolved nearestPath ->
  exists w' h,
    run env (createHackLanguageIfNotExisting client filePath) w = (w', Resolved h)
    /\ trace w' = trace w ++
         [Called (client_exec client "which hh_client");
          Called (client_findNearestFile client ".hhconfig" (pathUtil_dirname filePath));
          Resumed (Promise_all
                     (Single (client_exec client "which hh_client"))
                     (Single (client_findNearestFile client ".hhconfig"
                                (pathUtil_dirname filePath)))) true]
    /\ clientToHackLanguage w' = <[getID client := h]> (clientToHackLanguage w)
    /\ dom (clientToHackLanguage w') = {[getID client]} ∪ dom (clientToHackLanguage w)
    /\ instances w' = instances w ++ [ObjHackLanguage (hl_client h)]
    /\ clientToHackLinterCache w' = clientToHackLinterCache w.
Proof.
  intros Hmiss Hexec Hfind.
  destruct (run_create_first env _ _ _ _ _ Hmiss Hexec Hfind)
    as (w' & h & Hrun & Hreg & Hcache & Htrace & Hinst & _).
  exists w', h. split_and!; try assumption.
  rewrite Hreg. apply dom_insert_L.
Qed.

(** onDidSave_updates_cache: when updateFile succeeds and
    getServerDiagnostics answers with a list, onDidSave stores that list in
    the linter cache under the buffer's client id, replacing what was there,
    then dispatches [linter:lint] on the editor's view, then starts
    updateDependencies without waiting for it; it logs nothing. *)
Theorem onDidSave_updates_cache env editor w w1 h (d : list mixed) :
  run env (getHackLanguageForBuffer (getBuffer editor)) w = (w1, Resolved h) ->
  respond env (updateFile h (url_path (url_parse (getPath editor))) (getText editor))
    = Resolved tt ->
  respond env (getServerDiagnostics h) = Resolved (Some d) ->
  exists w',
    run env (onDidSave editor) w = (w', Resolved tt)
    /\ clientToHackLinterCache w' =
       <[getClientId (getBuffer editor) := d]> (clientToHackLinterCache w)
    /\ clientToHackLanguage w' = clientToHackLanguage w1
    /\ trace w' = trace w1 ++
         [Resumed OwnPromise true;
          Called (updateFile h (url_path (url_parse (getPath editor))) (getText editor));
          Resumed (Single (updateFile h (url_path (url_parse (getPath editor)))
                             (getText editor))) true;
          Called (getServerDiagnostics h);
          Resumed (Single (getServerDiagnostics h)) true;
          Dispatched (editor_view editor) "linter:lint";
          Called (updateDependencies h)].
Proof.
  intros Hs Hu Hg. unfold onDidSave.
  rewrite run_bind, run_await_async, Hs. simpl. rewrite Hu. simpl. rewrite Hg. simpl.
  eexists; split; [reflexivity|]. simpl. split_and!.
  - rewrite (run_create_cache _ _ _ _ _ _ Hs). reflexivity.
  - reflexivity.
  - rewrite <- !app_assoc. reflexivity.
Qed.

(** onDidSave_then_findDiagnostics: the server diagnostics that a save has
    cached are appended to the result of the next findDiagnostics on the
    same editor, which reuses the session of the save. *)
Theorem onDidSave_then_findDiagnostics env env' editor w w1 h (d errors : list mixed) :
  run env (getHackLanguageForBuffer (getBuffer editor)) w = (w1, Resolved h) ->
  respond env (updateFile h (url_path (url_parse (getPath editor))) (getText editor))
    = Resolved tt ->
  respond env (getServerDiagnostics h) = Resolved (Some d) ->
  respond env' (getDiagnostics h (url_path (url_parse (getPath editor))) (getText editor))
    = Resolved errors ->
  exists w' w'',
    run env (onDidSave editor) w = (w', Resolved tt)
    /\ run env' (findDiagnostics editor) w' = (w'', Resolved (errors ++ d)).
Proof.
  intros Hs Hu Hg Hd.
  pose proof (run_create_installed _ _ _ _ _ _ Hs) as Hin.
  pose proof (run_create_cache _ _ _ _ _ _ Hs) as Hc.
  unfold onDidSave.
  rewrite run_bind, run_await_async, Hs. simpl. rewrite Hu. simpl. rewrite Hg. simpl.
  eexists _, _; split; [reflexivity|].
  simpl. rewrite Hin. simpl. rewrite Hd. simpl.
  unfold getClientId. rewrite lookup_insert_eq. reflexivity.
Qed.

(** onDidSave_updateFile_failure: when updateFile fails, onDidSave fails with
    the same error right there: getServerDiagnostics and updateDependencies
    are never called, nothing is logged or dispatched, and the linter cache
    is what it was. *)
Theorem onDidSave_updateFile_failure env editor w w1 h err :
  run env (getHackLanguageForBuffer (getBuffer editor)) w = (w1, Resolved h) ->
  respond env (updateFile h (url_path (url_parse (getPath editor))) (getText editor))
    = Rejected err ->
  exists w',
    run env (onDidSave editor) w = (w', Rejected err)
    /\ clientToHackLinterCache w' = clientToHackLinterCache w
    /\ trace w' = trace w1 ++
         [Resumed OwnPromise true;
          Called (updateFile h (url_path (url_parse (getPath editor))) (getText editor));
          Resumed (Single (updateFile h (url_path (url_parse (getPath editor)))
                             (getText editor))) false].
Proof.
  intros Hs Hu. unfold onDidSave.
  rewrite run_bind, run_await_async, Hs. simpl. rewrite Hu. simpl.
  eexists; split; [reflexivity|]. simpl. split.
  - apply (run_create_cache _ _ _ _ _ _ Hs).
  - rewrite <- !app_assoc. reflexivity.
Qed.

(** onDidSave_no_server_diagnostics: when getServerDiagnostics answers with
    nothing (null or undefined), onDidSave neither touches the linter cache
    nor dispatches the linter nor logs; updateDependencies is still started. *)
Theorem onDidSave_no_server_diagnostics env editor w w1 h :
  run env (getHackLanguageForBuffer (getBuffer editor)) w = (w1, Resolved h) ->
  respond env (updateFile h (url_path (url_parse (getPath editor))) (getText editor))
    = Resolved tt ->
  respond env (getServerDiagnostics h) = Resolved None ->
  exists w',
    run env (onDidSave editor) w = (w', Resolved tt)
    /\ clientToHackLinterCache w' = clientToHackLinterCache w
    /\ trace w' = trace w1 ++
         [Resumed OwnPromise true;
          Called (updateFile h (url_path (url_parse (getPath editor))) (getText editor));
          Resumed (Single (updateFile h (url_path (url_parse (getPath editor)))
                             (getText editor))) true;
          Called (getServerDiagnostics h);
          Resumed (Single (getServerDiagnostics h)) true;
          Called (updateDependencies h)].
Proof.
  intros Hs Hu Hg. unfold onDidSave.
  rewrite run_bind, run_await_async, Hs. simpl. rewrite Hu. simpl. rewrite Hg. simpl.
  eexists; split; [reflexivity|]. simpl. split.
  - apply (run_create_cache _ _ _ _ _ _ Hs).
  - rewrite <- !app_assoc. reflexivity.
Qed.

(** *** Type hints and formatting *)

(** typeHintFromEditor_no_word: when there is no word under the position,
    typeHintFromEditor resolves to null as soon as it has its session and
    never calls getType. *)
Theorem typeHintFromEditor_no_word env editor (position : Point) w w1 h :
  run env (getHackLanguageForBuffer (getBuffer editor)) w = (w1, Resolved h) ->
  extractWordAtPosition editor position = None ->
  run env (typeHintFromEditor editor position) w
  = (emit [Resumed OwnPromise true] w1, Resolved None).
Proof.
  intros Hs Hword. unfold typeHintFromEditor.
  rewrite run_bind, run_await_async, Hs. simpl. rewrite Hword. reflexivity.
Qed.

(** typeHintFromEditor_hint: with a word under the 0-based position,
    getType is called once, with that word and with row + 1 and column + 1;
    an absent or empty type gives null, any other type gives that type as
    the hint, over the range of the word. *)
Theorem typeHintFromEditor_hint env editor (position : Point) w w1 h matchData ty :
  run env (getHackLanguageForBuffer (getBuffer editor)) w = (w1, Resolved h) ->
  extractWordAtPosition editor position = Some matchData ->
  let request :=
    getType h (url_path (url_parse (getPath editor))) (getText editor)
            (word matchData) (row position + 1) (column position + 1) in
  respond env request = Resolved ty ->
  exists w' r,
    run env (typeHintFromEditor editor position) w = (w', Resolved r)
    /\ trace w' = trace w1 ++
         [Resumed OwnPromise true; Called request; Resumed (Single request) true]
    /\ (r = None <-> ty = None \/ ty = Some "")
    /\ forall t, ty = Some t -> t <> "" ->
                 r = Some {| hint := t; hint_range := word_range matchData |}.
Proof.
  intros Hs Hword request Hty. unfold typeHintFromEditor.
  rewrite run_bind, run_await_async, Hs. simpl. rewrite Hword. simpl.
  fold request. rewrite Hty. simpl.
  destruct ty as [[|c t]|]; simpl;
    eexists _, _; (split; [reflexivity|]);
    (split; [simpl; rewrite <- app_assoc; reflexivity|]); split.
  - split; auto.
  - intros t [= <-] Ht. destruct Ht; reflexivity.
  - split; [discriminate|]. intros [|]; discriminate.
  - intros t' [= <-] _. reflexivity.
  - split; auto.
  - intros t [=].
Qed.

(** formatSourceFromEditor_offsets: formatSource is called once, with the
    text of the buffer and with the character offsets of the two ends of the
    range, each plus one; what it answers, a string or an error, is what the
    caller gets. *)
Theorem formatSourceFromEditor_offsets env editor (range : Range) w w1 h :
  run env (getHackLanguageForBuffer (getBuffer editor)) w = (w1, Resolved h) ->
  let buffer := getBuffer editor in
  let request :=
    formatSource h (buffer_getText buffer)
      (characterIndexForPosition buffer (range_start range) + 1)
      (characterIndexForPosition buffer (range_end range) + 1) in
  exists w',
    run env (formatSourceFromEditor editor range) w = (w', respond env request)
    /\ trace w' = trace w1 ++
         [Resumed OwnPromise true; Called request;
          Resumed (Single request) (fulfilled (respond env request))].
Proof.
  intros Hs buffer request. unfold formatSourceFromEditor.
  rewrite run_bind, run_await_async, Hs. simpl. fold buffer. fold request.
  destruct (respond env request) as [src|e]; simpl;
    eexists; (split; [reflexivity|]); simpl; rewrite <- app_assoc; reflexivity.
Qed.

(** findDefinition_file: the file of a definition is the path the backend
    gave when the editor's path has no protocol or no host (a local file);
    otherwise it is that path behind the editor's protocol, [//] and host. *)
Theorem findDefinition_file env editor (line column : Z) w w1 h pos rest :
  run env (getHackLanguageForBuffer (getBuffer editor)) w = (w1, Resolved h) ->
  respond env
    (getDefinition h (url_path (url_parse (getPath editor))) (getText editor)
                   (line + 1) (column + 1) (lineForRow (getBuffer editor) line))
    = Resolved (Some (pos :: rest)) ->
  exists w' d,
    run env (findDefinition editor line column) w = (w', Resolved (Some d))
    /\ (forall protocol host,
          url_protocol (url_parse (getPath editor)) = Some protocol ->
          url_host (url_parse (getPath editor)) = Some host ->
          protocol <> "" -> host <> "" ->
          def_file d = protocol +:+ "//" +:+ host +:+ loc_path pos)
    /\ (url_protocol (url_parse (getPath editor)) = None
        \/ url_protocol (url_parse (getPath editor)) = Some ""
        \/ url_host (url_parse (getPath editor)) = None
        \/ url_host (url_parse (getPath editor)) = Some "" ->
        def_file d = loc_path pos).
Proof.
  intros Hs Hr. unfold findDefinition.
  rewrite run_bind, run_await_async, Hs. simpl. rewrite Hr. simpl.
  eexists _, _; split; [reflexivity|]. simpl. unfold getFilePath. split.
  - intros protocol host -> -> Hp Hh.
    destruct protocol; [destruct Hp; reflexivity|].
    destruct host; [destruct Hh; reflexivity|]. reflexivity.
  - intros [-> | [-> | [-> | ->]]]; simpl; try reflexivity;
      destruct (url_protocol (url_parse (getPath editor))) as [[|c p]|]; reflexivity.
Qed.

(** *** Failures of the backend *)

(** backend_failure_propagates: with the session in hand, an error of the
    one backend request that findDiagnostics, fetchCompletionsForEditor,
    typeHintFromEditor or findDefinition makes is the error the operation
    fails with; none of them catches it. *)
Theorem backend_failure_propagates env editor w w1 h err :
  run env (getHackLanguageForBuffer (getBuffer editor)) w = (w1, Resolved h) ->
  (respond env (getDiagnostics h (url_path (url_parse (getPath editor))) (getText editor))
     = Rejected err ->
   (run env (findDiagnostics editor) w).2 = Rejected err)
  /\ (forall prefix,
        respond env
          (getCompletions h (url_path (url_parse (getPath editor))) (getText editor)
             (characterIndexForPosition (getBuffer editor)
                (getLastCursor_getBufferPosition editor)))
        = Rejected err ->
        (run env (fetchCompletionsForEditor editor prefix) w).2 = Rejected err)
  /\ (forall position matchData,
        extractWordAtPosition editor position = Some matchData ->
        respond env
          (getType h (url_path (url_parse (getPath editor))) (getText editor)
             (word matchData) (row position + 1) (column position + 1))
        = Rejected err ->
        (run env (typeHintFromEditor editor position) w).2 = Rejected err)
  /\ (forall line column,
        respond env
          (getDefinition h (url_path (url_parse (getPath editor))) (getText editor)
             (line + 1) (column + 1) (lineForRow (getBuffer editor) line))
        = Rejected err ->
        (run env (findDefinition editor line column) w).2 = Rejected err).
Proof.
  intros Hs. split_and!.
  - intros Hr. unfold findDiagnostics.
    rewrite run_bind, run_await_async, Hs. simpl. rewrite Hr. reflexivity.
  - intros prefix Hr. unfold fetchCompletionsForEditor.
    rewrite run_bind, run_await_async, Hs. simpl. rewrite Hr. reflexivity.
  - intros position matchData Hword Hr. unfold typeHintFromEditor.
    rewrite run_bind, run_await_async, Hs. simpl. rewrite Hword. simpl.
    rewrite Hr. reflexivity.
  - intros line column Hr. unfold findDefinition.
    rewrite run_bind, run_await_async, Hs. simpl. rewrite Hr. reflexivity.
Qed.

Lemma run_invoke_without_session env (i : Invocation) w w1 e :
  run env (getHackLanguageForBuffer (getBuffer (editor_of i))) w = (w1, Rejected e) ->
  run env (invoke i) w = (emit [Resumed OwnPromise true] w1, Rejected e).
Proof.
  intros Hs.
  destruct i; cbv beta iota delta [editor_of] in Hs;
    unfold invoke, findDiagnostics, fetchCompletionsForEditor,
      formatSourceFromEditor, typeHintFromEditor, findDefinition, onDidSave;
    rewrite !run_bind, run_await_async, Hs; reflexivity.
Qed.

(** session_failure_propagates: on a first access whose probes fail, every
    exported operation fails with the error of the probes; the only calls it
    has made are the two probes, no method of a HackLanguage; registry,
    linter cache and heap are what they were. *)
Theorem session_failure_propagates env (i : Invocation) w :
  let buffer := getBuffer (editor_of i) in
  let client := getClient (getUri buffer) in
  let filePath := url_path (url_parse (getUri buffer)) in
  clientToHackLanguage w !! getID client = None ->
  rejects (settle env (probe client filePath)) = true ->
  exists e w',
    settle env (probe client filePath) = Rejected e
    /\ run env (invoke i) w = (w', Rejected e)
    /\ clientToHackLanguage w' = clientToHackLanguage w
    /\ clientToHackLinterCache w' = clientToHackLinterCache w
    /\ heap w' = heap w
    /\ forall r, Called r ∈ trace w' ->
                 Called r ∈ trace w
                 \/ r = client_exec client "which hh_client"
                 \/ r = client_findNearestFile client ".hhconfig"
                          (pathUtil_dirname filePath).
Proof.
  intros buffer client filePath Hmiss Hrej.
  destruct (run_create_rejected env client filePath w Hmiss Hrej) as (e & Hset & Hrun).
  exists e, (emit [Resumed OwnPromise true] (emit (probing client filePath false) w)).
  split; [exact Hset|]. split.
  - apply run_invoke_without_session. exact Hrun.
  - split_and!; try reflexivity.
    intros r Hin. simpl in Hin.
    apply elem_of_app in Hin as [Hin|Hin];
      [|apply elem_of_cons in Hin as [[=]|Hin]; inversion Hin].
    apply elem_of_app in Hin as [Hin|Hin]; [left; exact Hin|].
    apply elem_of_cons in Hin as [[= ->]|Hin]; [auto|].
    apply elem_of_cons in Hin as [[= ->]|Hin]; [auto|].
    apply elem_of_cons in Hin as [[=]|Hin]. inversion Hin.
Qed.

(** *** Completions *)

Lemma lowerChar_idem (c : ascii) : lowerChar (lowerChar c) = lowerChar c.
Proof. destruct c as [[] [] [] [] [] [] [] []]; reflexivity. Qed.

Lemma toLowerCase_idem (s : string) : toLowerCase (toLowerCase s) = toLowerCase s.
Proof.
  induction s as [|c s IH]; simpl; [reflexivity|].
  rewrite lowerChar_idem, IH. reflexivity.
Qed.

Lemma indexOf_empty (s : string) : indexOf s "" = 0.
Proof. destruct s; reflexivity. Qed.

Lemma filter_all {A} (f : A -> bool) (l : list A) :
  (forall x, f x = true) -> List.filter f l = l.
Proof.
  intros Hf. induction l as [|x l IH]; simpl; [reflexivity|].
  rewrite Hf, IH. reflexivity.
Qed.

(** fetchCompletionsForEditor_empty_prefix: with the empty prefix nothing is
    filtered out: the caller gets the backend's completions as they are. *)
Theorem fetchCompletionsForEditor_empty_prefix env editor w w1 h completions :
  run env (getHackLanguageForBuffer (getBuffer editor)) w = (w1, Resolved h) ->
  respond env
    (getCompletions h (url_path (url_parse (getPath editor))) (getText editor)
       (characterIndexForPosition (getBuffer editor)
          (getLastCursor_getBufferPosition editor)))
    = Resolved completions ->
  (run env (fetchCompletionsForEditor editor "") w).2 = Resolved completions.
Proof.
  intros Hs Hc. unfold fetchCompletionsForEditor.
  rewrite run_bind, run_await_async, Hs. simpl. rewrite Hc. simpl.
  rewrite filter_all; [reflexivity|].
  intros c. rewrite indexOf_empty. reflexivity.
Qed.

(** fetchCompletionsForEditor_prefix_case: the case of the prefix does not
    matter: a prefix and its lower-cased form give the same run, whatever the
    backend answers. *)
Theorem fetchCompletionsForEditor_prefix_case env editor (prefix : string) w :
  run env (fetchCompletionsForEditor editor (toLowerCase prefix)) w
  = run env (fetchCompletionsForEditor editor prefix) w.
Proof.
  unfold fetchCompletionsForEditor. rewrite toLowerCase_idem. reflexivity.
Qed.

(** *** With the session in place *)

(** warm_operations_build_nothing: once the registry has the session of the
    editor's client, no exported operation on that editor, whatever the
    backend answers, changes the registry or builds an object. *)
Theorem warm_operations_build_nothing env (i : Invocation) w h :
  clientToHackLanguage w !! getClientId (getBuffer (editor_of i)) = Some h ->
  clientToHackLanguage (run env (invoke i) w).1 = clientToHackLanguage w
  /\ heap (run env (invoke i) w).1 = heap w.
Proof.
  intros Hh.
  assert (Hs : run env (getHackLanguageForBuffer (getBuffer (editor_of i))) w
               = (w, Resolved h))
    by (apply run_create_hit; exact Hh).
  destruct i; cbv beta iota delta [editor_of] in Hs;
    unfold invoke, findDiagnostics, fetchCompletionsForEditor,
      formatSourceFromEditor, typeHintFromEditor, findDefinition, onDidSave;
    rewrite !run_bind, run_await_async, Hs; simpl;
    repeat match goal with
           | |- context [respond ?e ?r] => destruct (respond e r); simpl
           | |- context [match ?x with _ => _ end] => is_var x; destruct x; simpl
           | |- context [match ?m !! ?k with _ => _ end] => destruct (m !! k); simpl
           | |- context [extractWordAtPosition ?e ?p] =>
               destruct (extractWordAtPosition e p); simpl
           | |- context [truthy ?t] => destruct (truthy t); simpl
           end;
    split; reflexivity.
Qed.

(** *** What holds from one await to the next, for calls in flight *)

Section Stretch.

Variable D : World -> World -> Prop.
Hypothesis D_refl : forall w, D w w.
Hypothesis D_trans : forall w1 w2 w3, D w1 w2 -> D w2 w3 -> D w1 w3.
Hypothesis D_emit :
  forall ws w evs, Forall (fun ev => loud ev = false) evs -> D ws w -> D ws (emit evs w).
Hypothesis D_create :
  forall client filePath ws w,
    D ws w -> stretch D (createHackLanguageIfNotExisting client filePath) ws w.

Lemma stretch_bind_ret {A B} (m : Async A) (g : A -> B) ws w :
  stretch D m ws w -> stretch D (bind m (fun r => Ret (g r))) ws w.
Proof.
  revert ws w; induction m as [a|e|X op k IH|a k IH]; intros ws w Hm; simpl in *.
  - exact Hm.
  - exact Hm.
  - apply IH, Hm.
  - destruct Hm as [Hd Hk]. split; [exact Hd|]. intros o w2. apply IH, Hk.
Qed.

Lemma stretch_async_bind {A B} (m : Async A) (f : A -> Async B) ws w :
  stretch D m ws w ->
  (forall a w2, stretch D (f a) w2 w2) ->
  stretch D (bind (await_async m) f) ws w.
Proof.
  intros Hm Hf. revert ws w Hm.
  induction m as [a|e|X op k IH|a k IH]; intros ws w Hm; simpl in *.
  - split; [exact Hm|]. intros _ w2. apply Hf.
  - split; [exact Hm|]. intros _ w2. apply D_refl.
  - apply IH, Hm.
  - destruct Hm as [Hd Hk]. split; [exact Hd|]. intros o w2. apply IH, Hk.
Qed.

Ltac walk :=
  repeat first
    [ apply D_refl
    | split
    | progress (intros; cbn [stretch bind try_catch await sync])
    | match goal with
      | |- stretch _ (bind (match ?o with _ => _ end) _) _ _ => destruct o
      | |- stretch _ (bind (try_catch (match ?o with _ => _ end) _) _) _ _ => destruct o
      | |- stretch _ (match ?x with _ => _ end) _ _ => destruct x
      | |- stretch _ (if ?b then _ else _) _ _ => destruct b
      end ].

Lemma stretch_reader (i : Invocation) w :
  (forall editor, i <> call_onDidSave editor) -> stretch D (invoke i) w w.
Proof.
  intros Hi.
  destruct i; try (exfalso; eapply Hi; reflexivity);
    unfold invoke, findDiagnostics, fetchCompletionsForEditor,
      formatSourceFromEditor, typeHintFromEditor, findDefinition;
    apply stretch_bind_ret, stretch_async_bind;
    try (apply D_create, D_refl); walk.
Qed.

Lemma stretch_onDidSave editor w :
  (forall X (op : SyncOp X) ws w',
     save_op (getClientId (getBuffer editor)) op -> D ws w' -> D ws (perform op w').1) ->
  stretch D (invoke (call_onDidSave editor)) w w.
Proof.
  intros Hop. unfold invoke, onDidSave.
  apply stretch_bind_ret, stretch_async_bind; [apply D_create, D_refl|].
  walk; repeat (apply Hop; [simpl; auto|]); apply D_refl.
Qed.

Lemma run_sync_stretch {A} (m : Async A) ws w :
  stretch D m ws w ->
  D ws (run_sync m w).1 /\ status_stretch D (run_sync m w).2.
Proof.
  revert ws w; induction m as [a|e|X op k IH|a k IH]; intros ws w Hm; simpl in *.
  - split; [exact Hm|exact I].
  - split; [exact Hm|exact I].
  - destruct (perform op w) as [w1 x]; simpl in *. apply IH, Hm.
  - destruct Hm as [Hd Hk]. split; [|exact Hk].
    apply D_emit; [|exact Hd]. apply Forall_forall. intros ev Hev.
    apply list_elem_of_fmap in Hev as (r & -> & _). reflexivity.
Qed.

Lemma resume_stretch {A} env (s : Status A) w :
  status_stretch D s ->
  D w (resume env s w).1 /\ status_stretch D (resume env s w).2.
Proof.
  destruct s as [o|a k]; simpl; intros Hs.
  - split; [apply D_refl|exact I].
  - destruct (run_sync_stretch (k (settle env a))
                (emit [Resumed a (fulfilled (settle env a))] w)
                (emit [Resumed a (fulfilled (settle env a))] w) (Hs _ _))
      as [Hd Hst].
    split; [|exact Hst].
    eapply D_trans; [|exact Hd].
    apply D_emit; [|apply D_refl]. repeat constructor.
Qed.

Lemma act_stretch {A} (a : Action A) w (pool : Pool A) :
  action_stretch D a ->
  Forall (status_stretch D) pool ->
  D w (act (w, pool) a).1 /\ Forall (status_stretch D) (act (w, pool) a).2.
Proof.
  intros Ha Hpool. destruct a as [m|i env]; simpl.
  - destruct (run_sync_stretch m w w (Ha w)) as [Hd Hs].
    destruct (run_sync m w) as [w' s]; simpl in *.
    split; [exact Hd|]. apply Forall_app; split; [exact Hpool|].
    constructor; [exact Hs|constructor].
  - destruct (pool !! i) as [s|] eqn:Hi; simpl; [|split; [apply D_refl|exact Hpool]].
    assert (Hsk : status_stretch D s) by (eapply Forall_lookup_1; eassumption).
    destruct (resume_stretch env s w Hsk) as [Hd Hs].
    destruct (resume env s w) as [w' s']; simpl in *.
    split; [exact Hd|]. apply Forall_insert; assumption.
Qed.

Lemma execute_stretch {A} (acts : list (Action A)) w (pool : Pool A) :
  Forall (action_stretch D) acts ->
  Forall (status_stretch D) pool ->
  D w (execute acts (w, pool)).1.
Proof.
  intros Hacts. revert w pool.
  induction Hacts as [|a acts Ha _ IH]; intros w pool Hpool.
  - apply D_refl.
  - change (execute (a :: acts) (w, pool)) with (execute acts (act (w, pool) a)).
    destruct (act_stretch a w pool Ha Hpool) as [Hd Hpool'].
    destruct (act (w, pool) a) as [w1 pool1]; simpl in Hd, Hpool'.
    eapply D_trans; [exact Hd|]. apply IH, Hpool'.
Qed.

End Stretch.

(** A relation that reads the linter cache and the trace only is kept by
    [createHackLanguageIfNotExisting], which writes neither. *)
Lemma create_stretch_frame (D : World -> World -> Prop) :
  (forall w, D w w) ->
  (forall ws w w',
     clientToHackLinterCache w' = clientToHackLinterCache w ->
     trace w' = trace w -> D ws w -> D ws w') ->
  forall client filePath ws w,
    D ws w -> stretch D (createHackLanguageIfNotExisting client filePath) ws w.
Proof.
  intros Hrefl Hframe client filePath ws w Hd.
  unfold createHackLanguageIfNotExisting; simpl.
  destruct (clientToHackLanguage w !! getID client); simpl; [exact Hd|].
  split; [exact Hd|].
  intros [[res nearestPath]|e] w2; simpl; [|apply Hrefl].
  destruct (clientToHackLanguage w2 !! getID client); simpl; [apply Hrefl|].
  destruct (truthy (trim (stdout res)) && truthy_opt nearestPath); simpl;
    apply (Hframe w2 w2); try reflexivity; apply Hrefl.
Qed.

Lemma filter_loud_silent (evs : list Event) :
  Forall (fun ev => loud ev = false) evs -> List.filter loud evs = [].
Proof.
  induction 1 as [|ev evs Hev _ IH]; simpl; [reflexivity|].
  rewrite Hev. exact IH.
Qed.

Lemma balanced_create client filePath ws w :
  balanced ws w -> stretch balanced (createHackLanguageIfNotExisting client filePath) ws w.
Proof.
  intros Hd.
  assert (Hrefl : forall w0, balanced w0 w0) by (intros w0; split; reflexivity).
  unfold createHackLanguageIfNotExisting; simpl.
  destruct (clientToHackLanguage w !! getID client); simpl; [exact Hd|].
  split; [exact Hd|].
  intros [[res nearestPath]|e] w2; simpl; [|apply Hrefl].
  destruct (clientToHackLanguage w2 !! getID client) eqn:Hmiss; simpl; [apply Hrefl|].
  destruct (truthy (trim (stdout res)) && truthy_opt nearestPath); simpl;
    (split; simpl; [apply insert_subseteq; exact Hmiss|]);
    rewrite (map_size_insert_None _ _ _ Hmiss);
    unfold instances; simpl; rewrite !List.filter_app, !length_app; simpl; lia.
Qed.

Lemma exported_stretch (D : World -> World -> Prop) (acts : list (Action Answer)) :
  (forall i w, stretch D (invoke i) w w) ->
  Forall exported acts -> Forall (action_stretch D) acts.
Proof.
  intros Hinv Hacts. eapply Forall_impl; [exact Hacts|].
  intros [m|i env]; simpl; [|auto]. intros [inv ->] w. apply Hinv.
Qed.

(** sessions_built_are_installed: over any interleaving of calls of the
    exported operations and of resumptions of their awaits, every
    HackLanguage that is built goes into the registry under a key that was
    not there: the registry only gains entries, and it gains as many as
    HackLanguage objects were built. *)
Theorem sessions_built_are_installed (acts : list (Action Answer)) w0 :
  Forall exported acts ->
  let w := (execute acts (start w0)).1 in
  clientToHackLanguage w0 ⊆ clientToHackLanguage w
  /\ (length (instances w) + size (clientToHackLanguage w0)
      = length (instances w0) + size (clientToHackLanguage w))%nat.
Proof.
  intros Hacts w.
  assert (Hrefl : forall w1, balanced w1 w1) by (intros w1; split; reflexivity).
  assert (Htrans : forall w1 w2 w3, balanced w1 w2 -> balanced w2 w3 -> balanced w1 w3).
  { intros w1 w2 w3 [Hs1 Hn1] [Hs2 Hn2]. split; [etrans; eassumption|lia]. }
  assert (Hemit : forall ws w1 evs, Forall (fun ev => loud ev = false) evs ->
                                    balanced ws w1 -> balanced ws (emit evs w1))
    by (intros ws w1 evs _ Hb; exact Hb).
  apply (execute_stretch balanced Hrefl Htrans Hemit acts w0 []);
    [|apply Forall_nil_2].
  apply exported_stretch; [|exact Hacts].
  intros i w1. destruct i.
  6: { apply stretch_onDidSave; try assumption; [apply balanced_create|].
       intros X op ws w' Hop Hb.
       destruct op; simpl in Hop; try contradiction; exact Hb. }
  all: apply stretch_reader; try assumption; try apply balanced_create;
    intros editor'; discriminate.
Qed.

(** linter_cache_written_only_by_save: over any interleaving of exported
    calls, the linter cache entry of a client id is touched by nothing but
    an onDidSave on a buffer of that client: without such a call it is, at
    the end, what it was at the start. *)
Theorem linter_cache_written_only_by_save (clientId : string)
    (acts : list (Action Answer)) w0 :
  Forall (not_saving_for clientId) acts ->
  clientToHackLinterCache (execute acts (start w0)).1 !! clientId
  = clientToHackLinterCache w0 !! clientId.
Proof.
  intros Hacts.
  set (D := same_cache_at clientId).
  assert (Hrefl : forall w1, D w1 w1) by (intros w1; reflexivity).
  assert (Htrans : forall w1 w2 w3, D w1 w2 -> D w2 w3 -> D w1 w3).
  { unfold D, same_cache_at. intros w1 w2 w3 H1 H2. congruence. }
  assert (Hemit : forall ws w1 evs, Forall (fun ev => loud ev = false) evs ->
                                    D ws w1 -> D ws (emit evs w1))
    by (intros ws w1 evs _ Hb; exact Hb).
  assert (Hcreate : forall client filePath ws w1,
            D ws w1 -> stretch D (createHackLanguageIfNotExisting client filePath) ws w1).
  { apply create_stretch_frame; [exact Hrefl|].
    unfold D, same_cache_at. intros ws w1 w' Hc _ Hd. rewrite Hc. exact Hd. }
  apply (execute_stretch D Hrefl Htrans Hemit acts w0 []); [|apply Forall_nil_2].
  eapply Forall_impl; [exact Hacts|].
  intros [m|i env]; simpl; [|auto]. intros (inv & -> & Hsave) w.
  destruct inv.
  6: { apply stretch_onDidSave; try assumption.
       intros X op ws w' Hop Hb. unfold D, same_cache_at in *.
       destruct op; simpl in Hop; try contradiction; try exact Hb.
       subst clientId0. simpl. rewrite lookup_insert_ne; [exact Hb|].
       apply (Hsave editor). reflexivity. }
  all: apply stretch_reader; try assumption; intros editor'; discriminate.
Qed.


(** only_save_logs_or_dispatches: over any interleaving of calls of the
    exported operations other than onDidSave, nothing is logged and no
    command is dispatched: the logged and dispatched events of the trace are
    those it started with. *)
Theorem only_save_logs_or_dispatches (acts : list (Action Answer)) w0 :
  Forall reading acts ->
  List.filter loud (trace (execute acts (start w0)).1) = List.filter loud (trace w0).
Proof.
  intros Hacts.
  assert (Hrefl : forall w1, same_noise w1 w1) by (intros w1; reflexivity).
  assert (Htrans : forall w1 w2 w3,
            same_noise w1 w2 -> same_noise w2 w3 -> same_noise w1 w3).
  { unfold same_noise. intros w1 w2 w3 H1 H2. congruence. }
  assert (Hemit : forall ws w1 evs, Forall (fun ev => loud ev = false) evs ->
                                    same_noise ws w1 -> same_noise ws (emit evs w1)).
  { unfold same_noise. intros ws w1 evs Hevs Hb. simpl.
    rewrite List.filter_app, (filter_loud_silent _ Hevs), app_nil_r. exact Hb. }
  assert (Hcreate : forall client filePath ws w1,
            same_noise ws w1 ->
            stretch same_noise (createHackLanguageIfNotExisting client filePath) ws w1).
  { apply create_stretch_frame; [exact Hrefl|].
    unfold same_noise. intros ws w1 w' _ Ht Hd. rewrite Ht. exact Hd. }
  apply (execute_stretch same_noise Hrefl Htrans Hemit acts w0 []);
    [|apply Forall_nil_2].
  eapply Forall_impl; [exact Hacts|].
  intros [m|i env]; simpl; [|auto]. intros (inv & -> & Hread) w.
  apply stretch_reader; assumption.
Qed.

End Hack.

(** ** The statements at work on the sample collaborators *)

Lemma createHackLanguageIfNotExisting_fast_path_witness :
  clientToHackLanguage Sample.warm !! getID Sample.remote = Some Sample.session
  /\ run_sync (createHackLanguageIfNotExisting Sample.dirname Sample.remote "/www/a.php")
              Sample.warm
     = (Sample.warm, Settled (Resolved Sample.session))
  /\ run Sample.backend
         (createHackLanguageIfNotExisting Sample.dirname Sample.remote "/www/a.php")
         Sample.warm
     = (Sample.warm, Resolved Sample.session).
Proof.
  split; [reflexivity|].
  apply (createHackLanguageIfNotExisting_fast_path Sample.dirname Sample.backend
           Sample.remote "/www/a.php" Sample.warm Sample.session).
  reflexivity.
Defined.

Lemma capability_correctness_witness :
  exists w' h,
    run Sample.backend
        (createHackLanguageIfNotExisting Sample.dirname Sample.remote "/www/a.php")
        Sample.fresh
    = (w', Resolved h)
    /\ clientToHackLanguage w' !! getID Sample.remote = Some h
    /\ (hl_client h = RealClient Sample.remote <->
        JsString.trim "/usr/bin/hh_client " <> ""
        /\ exists p, Some "/www" = Some p /\ p <> "")
    /\ (~ (JsString.trim "/usr/bin/hh_client " <> ""
           /\ exists p, Some "/www" = Some p /\ p <> "") ->
        hl_client h = NullHackClient 0 /\ heap w' !! 0%nat = Some ObjNullHackClient).
Proof.
  apply (capability_correctness Sample.dirname Sample.backend Sample.remote "/www/a.php"
           Sample.fresh (mkExec "/usr/bin/hh_client " "" 0) (Some "/www"));
    reflexivity.
Defined.

Lemma probe_failure_propagates_witness :
  exists e w',
    run Sample.broken
        (createHackLanguageIfNotExisting Sample.dirname Sample.remote "/www/a.php")
        Sample.fresh
    = (w', Rejected e)
    /\ (respond Sample.broken (client_exec Sample.remote "which hh_client") = Rejected e
        \/ respond Sample.broken
             (client_findNearestFile Sample.remote ".hhconfig" (Sample.dirname "/www/a.php"))
           = Rejected e)
    /\ clientToHackLanguage w' = clientToHackLanguage Sample.fresh
    /\ heap w' = heap Sample.fresh.
Proof.
  apply (probe_failure_propagates Sample.dirname Sample.broken Sample.remote "/www/a.php"
           Sample.fresh).
  - reflexivity.
  - left; reflexivity.
Defined.

Lemma findDiagnostics_merge_witness :
  exists w',
    run Sample.backend
        (findDiagnostics Sample.getClient Sample.url_parse Sample.dirname Sample.editor)
        Sample.warm
    = (w', Resolved [js_string "a"; js_string "b"; js_string "c"]).
Proof.
  apply (findDiagnostics_merge Sample.getClient Sample.url_parse Sample.dirname
           Sample.backend Sample.editor Sample.warm Sample.warm Sample.session
           [js_string "a"; js_string "b"]);
    reflexivity.
Defined.

Lemma findDefinition_coordinates_witness :
  exists w' r,
    run Sample.backend
        (findDefinition Sample.getClient Sample.url_parse Sample.dirname Sample.editor 0 6)
        Sample.warm
    = (w', r)
    /\ trace w' =
       trace Sample.warm ++
       [Resumed OwnPromise true;
        Called (getDefinition Sample.session "/www/a.php" "<?hh f();" 1 7
                  (Some "<?hh f();"));
        Resumed (Single (getDefinition Sample.session "/www/a.php" "<?hh f();" 1 7
                           (Some "<?hh f();"))) true]
    /\ forall pos rest,
        Resolved (Some [mkLocation "/www/f.php" 10 5; mkLocation "/www/g.php" 1 1])
        = Resolved (Some (pos :: rest)) ->
        exists d, r = Resolved (Some d)
                  /\ def_line d = loc_line pos - 1
                  /\ def_column d = loc_column pos - 1.
Proof.
  apply (findDefinition_coordinates Sample.getClient Sample.url_parse Sample.dirname
           Sample.backend Sample.editor 0 6 Sample.warm Sample.warm Sample.session).
  reflexivity.
Defined.

Lemma findDefinition_none_iff_witness :
  exists w' r,
    run Sample.backend
        (findDefinition Sample.getClient Sample.url_parse Sample.dirname Sample.editor 0 6)
        Sample.warm
    = (w', Resolved r)
    /\ (r = None <->
        Some [mkLocation "/www/f.php" 10 5; mkLocation "/www/g.php" 1 1] = None
        \/ Some [mkLocation "/www/f.php" 10 5; mkLocation "/www/g.php" 1 1] = Some [])
    /\ forall pos rest,
        Some [mkLocation "/www/f.php" 10 5; mkLocation "/www/g.php" 1 1]
        = Some (pos :: rest) ->
        r = Some {| def_file :=
                      getFilePath (loc_path pos) (Some "nuclide:") (Some "host:9090");
                    def_line := loc_line pos - 1;
                    def_column := loc_column pos - 1 |}.
Proof.
  apply (findDefinition_none_iff Sample.getClient Sample.url_parse Sample.dirname
           Sample.backend Sample.editor 0 6 Sample.warm Sample.warm Sample.session
           (Some [mkLocation "/www/f.php" 10 5; mkLocation "/www/g.php" 1 1]));
    reflexivity.
Defined.

Lemma onDidSave_server_diagnostics_failure_witness :
  exists w',
    run Sample.backend
        (onDidSave Sample.getClient Sample.url_parse Sample.dirname Sample.editor)
        Sample.warm
    = (w', Resolved tt)
    /\ clientToHackLinterCache w' = clientToHackLinterCache Sample.warm
    /\ trace w' =
       trace Sample.warm ++
       [Resumed OwnPromise true;
        Called (updateFile Sample.session "/www/a.php" "<?hh f();");
        Resumed (Single (updateFile Sample.session "/www/a.php" "<?hh f();")) true;
        Called (getServerDiagnostics Sample.session);
        Resumed (Single (getServerDiagnostics Sample.session)) false;
        Logged "Hack: getServerDiagnostics failed" (Error "connection lost");
        Called (updateDependencies Sample.session)].
Proof.
  apply (onDidSave_server_diagnostics_failure Sample.getClient Sample.url_parse
           Sample.dirname Sample.backend Sample.editor Sample.warm Sample.warm
           Sample.session (Error "connection lost"));
    reflexivity.
Defined.

Lemma fetchCompletionsForEditor_filter_witness :
  exists w' result,
    run Sample.backend
        (fetchCompletionsForEditor Sample.getClient Sample.url_parse Sample.dirname
           Sample.editor "FOO")
        Sample.warm
    = (w', Resolved result)
    /\ result = [mkCompletion "FooBar" js_null; mkCompletion "foo" js_null]
    /\ sublist result
         [mkCompletion "FooBar" js_null; mkCompletion "baz" js_null;
          mkCompletion "foo" js_null]
    /\ forall c,
        c ∈ result <->
        c ∈ [mkCompletion "FooBar" js_null; mkCompletion "baz" js_null;
             mkCompletion "foo" js_null]
        /\ exists pre post, JsString.toLowerCase (matchText c) = pre +:+ "foo" +:+ post.
Proof.
  apply (fetchCompletionsForEditor_filter Sample.getClient Sample.url_parse
           Sample.dirname Sample.backend Sample.editor "FOO" Sample.warm Sample.warm
           Sample.session
           [mkCompletion "FooBar" js_null; mkCompletion "baz" js_null;
            mkCompletion "foo" js_null]);
    reflexivity.
Defined.

(** A definition lookup installs the session; a save and a diagnostics
    request, interleaved, then leave the entry as it is. *)
Lemma registry_entries_are_kept_witness :
  clientToHackLanguage
    (execute
       ([Spawn (invoke Sample.getClient Sample.url_parse Sample.dirname
                  Sample.extractWordAtPosition (call_findDefinition Sample.editor 0 6));
         Wake 0 Sample.backend; Wake 0 Sample.backend]
        ++ [Spawn (invoke Sample.getClient Sample.url_parse Sample.dirname
                     Sample.extractWordAtPosition (call_onDidSave Sample.editor));
            Spawn (invoke Sample.getClient Sample.url_parse Sample.dirname
                     Sample.extractWordAtPosition (call_findDiagnostics Sample.editor));
            Wake 1 Sample.backend; Wake 2 Sample.backend; Wake 1 Sample.backend])
       (start Sample.fresh)).1
  !! getID Sample.remote = Some Sample.session.
Proof.
  apply (registry_entries_are_kept Sample.getClient Sample.url_parse Sample.dirname
           Sample.extractWordAtPosition).
  - repeat constructor; eexists; reflexivity.
  - repeat constructor; eexists; reflexivity.
  - vm_compute; reflexivity.
Defined.

(** Two callers race on a fresh registry; the second is resumed first. *)
Lemma single_session_witness :
  let acts :=
    [Spawn (createHackLanguageIfNotExisting Sample.dirname Sample.remote "/www/a.php");
     Spawn (createHackLanguageIfNotExisting Sample.dirname Sample.remote' "/www/b.php");
     Wake 1 Sample.backend; Wake 0 Sample.backend] in
  let w := (execute acts (start Sample.fresh)).1 in
  let pool := (execute acts (start Sample.fresh)).2 in
  pool = [Settled (Resolved (mkHackLanguage 0 (RealClient Sample.remote')));
          Settled (Resolved (mkHackLanguage 0 (RealClient Sample.remote')))]
  /\ (forall i h, pool !! i = Some (Settled (Resolved h)) ->
                  clientToHackLanguage w !! getID Sample.remote = Some h)
  /\ built_once (getID Sample.remote) Sample.fresh w
  /\ (Forall (answered Sample.dirname) acts ->
      forall i e, pool !! i <> Some (Settled (Rejected e)))
  /\ (forall i a k env,
        pool !! i = Some (Suspended a k) ->
        fulfilled (settle env a) = true ->
        exists w' h,
          resume env (Suspended a k) w = (w', Settled (Resolved h))
          /\ clientToHackLanguage w' !! getID Sample.remote = Some h
          /\ (forall h0, clientToHackLanguage w !! getID Sample.remote = Some h0 -> h = h0)
          /\ built_once (getID Sample.remote) Sample.fresh w')
  /\ (forall before after h,
        acts = before ++ after ->
        clientToHackLanguage (execute before (start Sample.fresh)).1
          !! getID Sample.remote = Some h ->
        clientToHackLanguage w !! getID Sample.remote = Some h).
Proof.
  intros acts w pool. split; [reflexivity|].
  apply (single_session Sample.dirname (getID Sample.remote) acts Sample.fresh).
  repeat first [apply Forall_nil_2 | apply Forall_cons_2]; simpl;
    try exact I; eexists _, _; (split; [|reflexivity]); reflexivity.
Defined.

(** ** The further properties at work on the sample collaborators *)

Lemma first_access_effects_witness :
  exists w' h,
    run Sample.backend
        (createHackLanguageIfNotExisting Sample.dirname Sample.remote "/www/a.php")
        Sample.fresh
    = (w', Resolved h)
    /\ trace w' = trace Sample.fresh ++
         [Called (client_exec Sample.remote "which hh_client");
          Called (client_findNearestFile Sample.remote ".hhconfig" "/www");
          Resumed (Promise_all
                     (Single (client_exec Sample.remote "which hh_client"))
                     (Single (client_findNearestFile Sample.remote ".hhconfig" "/www")))
                  true]
    /\ clientToHackLanguage w'
       = <[getID Sample.remote := h]> (clientToHackLanguage Sample.fresh)
    /\ dom (clientToHackLanguage w')
       = {[getID Sample.remote]} ∪ dom (clientToHackLanguage Sample.fresh)
    /\ instances w' = instances Sample.fresh ++ [ObjHackLanguage (hl_client h)]
    /\ clientToHackLinterCache w' = clientToHackLinterCache Sample.fresh.
Proof.
  apply (first_access_effects Sample.dirname Sample.backend Sample.remote "/www/a.php"
           Sample.fresh (mkExec "/usr/bin/hh_client " "" 0) (Some "/www"));
    reflexivity.
Defined.

Lemma onDidSave_updates_cache_witness :
  exists w',
    run Sample.healthy
        (onDidSave Sample.getClient Sample.url_parse Sample.dirname Sample.editor)
        Sample.warm
    = (w', Resolved tt)
    /\ clientToHackLinterCache w' =
       <[getID Sample.remote := [js_string "s"]]> (clientToHackLinterCache Sample.warm)
    /\ clientToHackLanguage w' = clientToHackLanguage Sample.warm
    /\ trace w' =
       trace Sample.warm ++
       [Resumed OwnPromise true;
        Called (updateFile Sample.session "/www/a.php" "<?hh f();");
        Resumed (Single (updateFile Sample.session "/www/a.php" "<?hh f();")) true;
        Called (getServerDiagnostics Sample.session);
        Resumed (Single (getServerDiagnostics Sample.session)) true;
        Dispatched 7 "linter:lint";
        Called (updateDependencies Sample.session)].
Proof.
  apply (onDidSave_updates_cache Sample.getClient Sample.url_parse Sample.dirname
           Sample.healthy Sample.editor Sample.warm Sample.warm Sample.session
           [js_string "s"]);
    reflexivity.
Defined.

Lemma onDidSave_then_findDiagnostics_witness :
  exists w' w'',
    run Sample.healthy
        (onDidSave Sample.getClient Sample.url_parse Sample.dirname Sample.editor)
        Sample.warm
    = (w', Resolved tt)
    /\ run Sample.backend
           (findDiagnostics Sample.getClient Sample.url_parse Sample.dirname Sample.editor)
           w'
       = (w'', Resolved [js_string "a"; js_string "b"; js_string "s"]).
Proof.
  apply (onDidSave_then_findDiagnostics Sample.getClient Sample.url_parse Sample.dirname
           Sample.healthy Sample.backend Sample.editor Sample.warm Sample.warm
           Sample.session [js_string "s"] [js_string "a"; js_string "b"]);
    reflexivity.
Defined.

Lemma onDidSave_updateFile_failure_witness :
  exists w',
    run Sample.failing
        (onDidSave Sample.getClient Sample.url_parse Sample.dirname Sample.editor)
        Sample.warm
    = (w', Rejected (Error "backend down"))
    /\ clientToHackLinterCache w' = clientToHackLinterCache Sample.warm
    /\ trace w' =
       trace Sample.warm ++
       [Resumed OwnPromise true;
        Called (updateFile Sample.session "/www/a.php" "<?hh f();");
        Resumed (Single (updateFile Sample.session "/www/a.php" "<?hh f();")) false].
Proof.
  apply (onDidSave_updateFile_failure Sample.getClient Sample.url_parse Sample.dirname
           Sample.failing Sample.editor Sample.warm Sample.warm Sample.session
           (Error "backend down"));
    reflexivity.
Defined.

Lemma onDidSave_no_server_diagnostics_witness :
  exists w',
    run Sample.mute
        (onDidSave Sample.getClient Sample.url_parse Sample.dirname Sample.editor)
        Sample.warm
    = (w', Resolved tt)
    /\ clientToHackLinterCache w' = clientToHackLinterCache Sample.warm
    /\ trace w' =
       trace Sample.warm ++
       [Resumed OwnPromise true;
        Called (updateFile Sample.session "/www/a.php" "<?hh f();");
        Resumed (Single (updateFile Sample.session "/www/a.php" "<?hh f();")) true;
        Called (getServerDiagnostics Sample.session);
        Resumed (Single (getServerDiagnostics Sample.session)) true;
        Called (updateDependencies Sample.session)].
Proof.
  apply (onDidSave_no_server_diagnostics Sample.getClient Sample.url_parse Sample.dirname
           Sample.mute Sample.editor Sample.warm Sample.warm Sample.session);
    reflexivity.
Defined.

Lemma typeHintFromEditor_no_word_witness :
  run Sample.backend
      (typeHintFromEditor Sample.getClient Sample.url_parse Sample.dirname
         Sample.extractWordAtPosition Sample.editor (mkPoint 0 3))
      Sample.warm
  = (emit [Resumed OwnPromise true] Sample.warm, Resolved None).
Proof.
  apply (typeHintFromEditor_no_word Sample.getClient Sample.url_parse Sample.dirname
           Sample.extractWordAtPosition Sample.backend Sample.editor (mkPoint 0 3)
           Sample.warm Sample.warm Sample.session);
    reflexivity.
Defined.

Lemma typeHintFromEditor_hint_witness :
  exists w' r,
    run Sample.backend
        (typeHintFromEditor Sample.getClient Sample.url_parse Sample.dirname
           Sample.wordAt Sample.editor (mkPoint 0 5))
        Sample.warm
    = (w', Resolved r)
    /\ trace w' =
       trace Sample.warm ++
       [Resumed OwnPromise true;
        Called (getType Sample.session "/www/a.php" "<?hh f();" "f" 1 6);
        Resumed (Single (getType Sample.session "/www/a.php" "<?hh f();" "f" 1 6)) true]
    /\ (r = None <-> Some "int" = None \/ Some "int" = Some "")
    /\ forall t, Some "int" = Some t -> t <> "" ->
                 r = Some {| hint := t;
                             hint_range := mkRange (mkPoint 0 5) (mkPoint 0 6) |}.
Proof.
  apply (typeHintFromEditor_hint Sample.getClient Sample.url_parse Sample.dirname
           Sample.wordAt Sample.backend Sample.editor (mkPoint 0 5)
           Sample.warm Sample.warm Sample.session
           (mkWordMatch "f" (mkRange (mkPoint 0 5) (mkPoint 0 6))) (Some "int"));
    reflexivity.
Defined.

Lemma formatSourceFromEditor_offsets_witness :
  exists w',
    run Sample.backend
        (formatSourceFromEditor Sample.getClient Sample.url_parse Sample.dirname
           Sample.editor (mkRange (mkPoint 0 0) (mkPoint 0 9)))
        Sample.warm
    = (w', Resolved "<?hh f();")
    /\ trace w' =
       trace Sample.warm ++
       [Resumed OwnPromise true;
        Called (formatSource Sample.session "<?hh f();" 1 10);
        Resumed (Single (formatSource Sample.session "<?hh f();" 1 10)) true].
Proof.
  apply (formatSourceFromEditor_offsets Sample.getClient Sample.url_parse Sample.dirname
           Sample.backend Sample.editor (mkRange (mkPoint 0 0) (mkPoint 0 9))
           Sample.warm Sample.warm Sample.session).
  reflexivity.
Defined.

Lemma findDefinition_file_witness :
  exists w' d,
    run Sample.backend
        (findDefinition Sample.getClient Sample.url_parse Sample.dirname Sample.editor 0 6)
        Sample.warm
    = (w', Resolved (Some d))
    /\ (forall protocol host,
          Some "nuclide:" = Some protocol ->
          Some "host:9090" = Some host ->
          protocol <> "" -> host <> "" ->
          def_file d = protocol +:+ "//" +:+ host +:+ "/www/f.php")
    /\ (Some "nuclide:" = None \/ Some "nuclide:" = Some ""
        \/ Some "host:9090" = None \/ Some "host:9090" = Some "" ->
        def_file d = "/www/f.php").
Proof.
  apply (findDefinition_file Sample.getClient Sample.url_parse Sample.dirname
           Sample.backend Sample.editor 0 6 Sample.warm Sample.warm Sample.session
           (mkLocation "/www/f.php" 10 5) [mkLocation "/www/g.php" 1 1]);
    reflexivity.
Defined.

Lemma backend_failure_propagates_witness :
  (respond Sample.failing (getDiagnostics Sample.session "/www/a.php" "<?hh f();")
   = Rejected (Error "backend down") ->
   (run Sample.failing
        (findDiagnostics Sample.getClient Sample.url_parse Sample.dirname Sample.editor)
        Sample.warm).2
   = Rejected (Error "backend down"))
  /\ (forall prefix,
        respond Sample.failing (getCompletions Sample.session "/www/a.php" "<?hh f();" 6)
        = Rejected (Error "backend down") ->
        (run Sample.failing
             (fetchCompletionsForEditor Sample.getClient Sample.url_parse Sample.dirname
                Sample.editor prefix)
             Sample.warm).2
        = Rejected (Error "backend down"))
  /\ (forall position matchData,
        Sample.wordAt Sample.editor position = Some matchData ->
        respond Sample.failing
          (getType Sample.session "/www/a.php" "<?hh f();" (word matchData)
             (row position + 1) (column position + 1))
        = Rejected (Error "backend down") ->
        (run Sample.failing
             (typeHintFromEditor Sample.getClient Sample.url_parse Sample.dirname
                Sample.wordAt Sample.editor position)
             Sample.warm).2
        = Rejected (Error "backend down"))
  /\ (forall line column,
        respond Sample.failing
          (getDefinition Sample.session "/www/a.php" "<?hh f();" (line + 1) (column + 1)
             (lineForRow Sample.buffer line))
        = Rejected (Error "backend down") ->
        (run Sample.failing
             (findDefinition Sample.getClient Sample.url_parse Sample.dirname
                Sample.editor line column)
             Sample.warm).2
        = Rejected (Error "backend down")).
Proof.
  apply (backend_failure_propagates Sample.getClient Sample.url_parse Sample.dirname
           Sample.wordAt Sample.failing Sample.editor Sample.warm Sample.warm
           Sample.session (Error "backend down")).
  reflexivity.
Defined.

Lemma session_failure_propagates_witness :
  exists e w',
    settle Sample.broken (probe Sample.dirname Sample.remote "/www/a.php") = Rejected e
    /\ run Sample.broken
           (invoke Sample.getClient Sample.url_parse Sample.dirname
              Sample.extractWordAtPosition (call_onDidSave Sample.editor))
           Sample.fresh
       = (w', Rejected e)
    /\ clientToHackLanguage w' = clientToHackLanguage Sample.fresh
    /\ clientToHackLinterCache w' = clientToHackLinterCache Sample.fresh
    /\ heap w' = heap Sample.fresh
    /\ forall r, Called r ∈ trace w' ->
                 Called r ∈ trace Sample.fresh
                 \/ r = client_exec Sample.remote "which hh_client"
                 \/ r = client_findNearestFile Sample.remote ".hhconfig" "/www".
Proof.
  apply (session_failure_propagates Sample.getClient Sample.url_parse Sample.dirname
           Sample.extractWordAtPosition Sample.broken (call_onDidSave Sample.editor)
           Sample.fresh);
    reflexivity.
Defined.

Lemma fetchCompletionsForEditor_empty_prefix_witness :
  (run Sample.backend
       (fetchCompletionsForEditor Sample.getClient Sample.url_parse Sample.dirname
          Sample.editor "")
       Sample.warm).2
  = Resolved [mkCompletion "FooBar" js_null; mkCompletion "baz" js_null;
              mkCompletion "foo" js_null].
Proof.
  apply (fetchCompletionsForEditor_empty_prefix Sample.getClient Sample.url_parse
           Sample.dirname Sample.backend Sample.editor Sample.warm Sample.warm
           Sample.session);
    reflexivity.
Defined.

Lemma warm_operations_build_nothing_witness :
  clientToHackLanguage
    (run Sample.healthy
         (invoke Sample.getClient Sample.url_parse Sample.dirname
            Sample.extractWordAtPosition (call_onDidSave Sample.editor))
         Sample.warm).1
  = clientToHackLanguage Sample.warm
  /\ heap
       (run Sample.healthy
            (invoke Sample.getClient Sample.url_parse Sample.dirname
               Sample.extractWordAtPosition (call_onDidSave Sample.editor))
            Sample.warm).1
     = heap Sample.warm.
Proof.
  apply (warm_operations_build_nothing Sample.getClient Sample.url_parse Sample.dirname
           Sample.extractWordAtPosition Sample.healthy (call_onDidSave Sample.editor)
           Sample.warm Sample.session).
  reflexivity.
Defined.

(** Two lookups race on a fresh registry and a save follows: one session is
    built and the registry has one entry. *)
Lemma sessions_built_are_installed_witness :
  let acts :=
    [Spawn (invoke Sample.getClient Sample.url_parse Sample.dirname
              Sample.extractWordAtPosition (call_findDefinition Sample.editor 0 6));
     Spawn (invoke Sample.getClient Sample.url_parse Sample.dirname
              Sample.extractWordAtPosition (call_findDiagnostics Sample.editor));
     Wake 1 Sample.backend; Wake 0 Sample.backend;
     Spawn (invoke Sample.getClient Sample.url_parse Sample.dirname
              Sample.extractWordAtPosition (call_onDidSave Sample.editor));
     Wake 2 Sample.healthy; Wake 1 Sample.backend] in
  let w := (execute acts (start Sample.fresh)).1 in
  (length (instances w) = 1%nat /\ size (clientToHackLanguage w) = 1%nat)
  /\ clientToHackLanguage Sample.fresh ⊆ clientToHackLanguage w
  /\ (length (instances w) + size (clientToHackLanguage Sample.fresh)
      = length (instances Sample.fresh) + size (clientToHackLanguage w))%nat.
Proof.
  intros acts w. split; [split; vm_compute; reflexivity|].
  apply (sessions_built_are_installed Sample.getClient Sample.url_parse Sample.dirname
           Sample.extractWordAtPosition acts Sample.fresh).
  repeat first [apply Forall_nil_2 | apply Forall_cons_2];
    try exact I; eexists; reflexivity.
Defined.

(** Lookups and completions, interleaved, leave the cached server
    diagnostics of the client as they are. *)
Lemma linter_cache_written_only_by_save_witness :
  clientToHackLinterCache
    (execute
       [Spawn (invoke Sample.getClient Sample.url_parse Sample.dirname
                 Sample.extractWordAtPosition (call_findDiagnostics Sample.editor));
        Spawn (invoke Sample.getClient Sample.url_parse Sample.dirname
                 Sample.extractWordAtPosition
                 (call_fetchCompletionsForEditor Sample.editor "fo"));
        Wake 1 Sample.backend; Wake 0 Sample.backend; Wake 1 Sample.backend]
       (start Sample.warm)).1
  !! getID Sample.remote
  = clientToHackLinterCache Sample.warm !! getID Sample.remote.
Proof.
  apply (linter_cache_written_only_by_save Sample.getClient Sample.url_parse
           Sample.dirname Sample.extractWordAtPosition).
  repeat first [apply Forall_nil_2 | apply Forall_cons_2];
    try exact I; eexists; (split; [reflexivity|]); intros editor; discriminate.
Defined.


Lemma only_save_logs_or_dispatches_witness :
  List.filter loud
    (trace
       (execute
          [Spawn (invoke Sample.getClient Sample.url_parse Sample.dirname
                    Sample.extractWordAtPosition (call_findDiagnostics Sample.editor));
           Wake 0 Sample.failing; Wake 0 Sample.failing]
          (start Sample.fresh)).1)
  = List.filter loud (trace Sample.fresh).
Proof.
  apply (only_save_logs_or_dispatches Sample.getClient Sample.url_parse Sample.dirname
           Sample.extractWordAtPosition).
  repeat first [apply Forall_nil_2 | apply Forall_cons_2];
    try exact I; eexists; (split; [reflexivity|]); intros editor; discriminate.
Defined.
